(** * Attribute descriptors and the Attributee construction engine

    A shallow embedding of [vot/utilities/attributes.py]: the field
    descriptors ([Attribute], [Nested], [Include], [Number], [Boolean],
    [String], [List], [Map], [Object], [Callable]), the metaclass that
    collects the declared attributes of a class along its method resolution
    order, and the [Attributee] base class with its constructor, its
    [__setattr__] guard and [dump].  With them come the class [Stack] and
    [resolve_stack] of [vot/stack/__init__.py] and the methods of
    [LocalStorage] of [vot/workspace.py] that write to the file system,
    over a model of the paths of [posixpath]. *)

From Stdlib Require Import ZArith String Ascii List Bool.
From stdpp Require Import base gmap strings list.

Open Scope Z_scope.
Open Scope string_scope.
Open Scope list_scope.

#[local] Set Warnings "-register-all,-clear-no-such-hyp".

(** ** Values *)

(** Python values reaching the engine: parsed configuration data (scalars,
    lists, dicts), the [Undefined()] singleton, the [ReadonlyMapping] view
    built by [Map.coerce], callables and classes found through the registry,
    and [Attributee] instances, which carry their class and their instance
    [__dict__].  Dicts are insertion ordered, so they are association lists.

    A descriptor holds its coerced default, a class holds its descriptors and
    an instance holds its class: the three types are mutually defined.  The
    constructors of [attr] list the attributes that the finished [__init__]
    leaves on the descriptor object.  [Integer] is [Number] with
    [conversion=int]; its sibling [Float] differs by the conversion alone and
    needs floating point numbers, which are not embedded. *)
Inductive value : Type :=
| VNone
| VUndefined
| VBool (b : bool)
| VInt (z : Z)
| VStr (s : string)
| VList (l : list value)
| VDict (d : list (string * value))
| VReadonlyMapping (d : list (string * value))
| VFunction (qualname : string) (resname : option string)
| VClass (c : klass) (resname : option string)
| VInstance (c : klass) (d : list (string * value))
with attr : Type :=
| Attribute (_default : value)
| Nested (_acls : klass) (_required : bool) (_default : value)
| Include (_acls : klass) (_required : bool)
| Integer (_val_min _val_max : option Z) (_default : value)
| Boolean (_default : value)
| String (_default : value)
| List (_contains : attr) (_separator : string) (_default : value)
| Map (_contains : attr) (_default : value)
| Object (_resolver : string) (_default : value)
| Callable (_default : value)
with klass : Type :=
| Klass (name : string) (_declared_attributes : list (string * attr)).

Definition dict : Type := list (string * value).
Definition context : Type := list (string * value).

Definition klass_name (c : klass) : string :=
  match c with Klass n _ => n end.

Definition declared_attributes (c : klass) : list (string * attr) :=
  match c with Klass _ attrs => attrs end.

(** ** Exceptions and the two monads *)

Inductive exn : Type :=
| MissingArguments (names : gset string)      (* AttributeError("Missing arguments: ...") *)
| UnsupportedArguments (names : gset string)  (* AttributeError("Unsupported arguments: ...") *)
| NoAttribute (name : string)                 (* AttributeError: no attribute of that name *)
| Readonly (key : string)                     (* AttributeException("Attribute ... is readonly") *)
| CantSetAttribute                            (* AttributeError: can't set attribute *)
| IllegalBaseClass                            (* AttributeException("Illegal base class ...") *)
| UnableToConvert (target : string)           (* AttributeException("Unable to value convert to ...") *)
| AssertionError
| TypeError
| ValueError
| ConversionFailure
| NotFound (name : string)
| OtherError (msg : string).

Inductive result (A : Type) : Type :=
| Ok (a : A)
| Raise (e : exn).
Arguments Ok {A} a.
Arguments Raise {A} e.

#[global] Instance result_ret : MRet result := fun A a => Ok a.
#[global] Instance result_bind : MBind result := fun A B k m =>
  match m with Ok a => k a | Raise e => Raise e end.
#[global] Instance result_fmap : FMap result := fun A B f m =>
  match m with Ok a => Ok (f a) | Raise e => Raise e end.

(** Code that calls a resolver or the import registry runs in a state and
    exception monad over the state [W] of these collaborators; an exception
    keeps the state reached when it was raised. *)
Definition M (W A : Type) : Type := W → result A * W.

#[global] Instance M_ret {W} : MRet (M W) := fun A a w => (Ok a, w).
#[global] Instance M_bind {W} : MBind (M W) := fun A B k m w =>
  match m w with
  | (Ok a, w') => k a w'
  | (Raise e, w') => (Raise e, w')
  end.
#[global] Instance M_fmap {W} : FMap (M W) := fun A B f m w =>
  match m w with
  | (Ok a, w') => (Ok (f a), w')
  | (Raise e, w') => (Raise e, w')
  end.

Definition raise {W A} (e : exn) : M W A := fun w => (Raise e, w).

Definition lift {W A} (r : result A) : M W A := fun w => (r, w).

(** Reading an attribute of an object whose [__init__] may not have assigned
    it yet. *)
Definition get_slot {W A} (name : string) (slot : option A) : M W A :=
  match slot with
  | Some a => mret a
  | None => raise (NoAttribute name)
  end.

Section Folds.
Context {W S E : Type} (step : S → E → M W S).

Fixpoint foldM (l : list E) (s : S) : M W S :=
  match l with
  | [] => mret s
  | e :: l' => s' ← step s e; foldM l' s'
  end.
End Folds.

Section Maps.
Context {W X Y : Type} (f : X → M W Y).

Fixpoint mapM (l : list X) : M W (list Y) :=
  match l with
  | [] => mret []
  | x :: l' => y ← f x; ys ← mapM l'; mret (y :: ys)
  end.
End Maps.

Section PureFolds.
Context {S E : Type} (step : S → E → result S).

Fixpoint foldR (l : list E) (s : S) : result S :=
  match l with
  | [] => Ok s
  | e :: l' => s' ← step s e; foldR l' s'
  end.
End PureFolds.

Section PureMaps.
Context {X Y : Type} (f : X → result Y).

Fixpoint mapR (l : list X) : result (list Y) :=
  match l with
  | [] => Ok []
  | x :: l' => y ← f x; ys ← mapR l'; Ok (y :: ys)
  end.
End PureMaps.

(** ** Python dicts as association lists *)

Section Dict.
Context {V : Type}.

(** [d.get(k)] / [k in d] *)
Fixpoint dict_get (d : list (string * V)) (k : string) : option V :=
  match d with
  | [] => None
  | (k', v) :: d' => if String.eqb k' k then Some v else dict_get d' k
  end.

(** [d[k] = v]: an existing key keeps its position, a new key goes last. *)
Fixpoint dict_set (d : list (string * V)) (k : string) (v : V) : list (string * V) :=
  match d with
  | [] => [(k, v)]
  | (k', v') :: d' =>
      if String.eqb k' k then (k, v) :: d' else (k', v') :: dict_set d' k v
  end.

(** [d.update(other)] *)
Definition dict_update (d other : list (string * V)) : list (string * V) :=
  fold_left (fun acc kv => dict_set acc kv.1 kv.2) other d.

(** [dict(pairs)] *)
Definition dict_of (pairs : list (string * V)) : list (string * V) :=
  dict_update [] pairs.

(** [del d[k]] for a key that is present. *)
Fixpoint dict_del (d : list (string * V)) (k : string) : list (string * V) :=
  match d with
  | [] => []
  | (k', v) :: d' => if String.eqb k' k then d' else (k', v) :: dict_del d' k
  end.

Definition dict_keys (d : list (string * V)) : list string := fst <$> d.
Definition dict_values (d : list (string * V)) : list V := snd <$> d.

(** Look an entry up and continue with it. *)
Definition with_item {R : Type} (k : string) (found : V → R) (missing : R)
  : list (string * V) → R :=
  fix look d :=
    match d with
    | [] => missing
    | (k', v) :: d' => if String.eqb k' k then found v else look d'
    end.
End Dict.

(** ** Helpers of the module *)

Definition is_undefined (a : value) : bool :=
  match a with
  | VUndefined => true
  | _ => false
  end.

(** [str.split(sep)] of the Python library: [ValueError] on an empty
    separator. *)
Fixpoint split_go (sep : string) (skip : nat) (cur : string) (s : string) : list string :=
  match s with
  | EmptyString => [cur]
  | String.String a s' =>
      match skip with
      | S n => split_go sep n cur s'
      | O =>
          if String.prefix sep s
          then cur :: split_go sep (String.length sep - 1) "" s'
          else split_go sep 0 (cur ++ String.String a "") s'
      end
  end.

Definition str_split (s sep : string) : result (list string) :=
  match sep with
  | EmptyString => Raise ValueError
  | _ => Ok (split_go sep 0 "" s)
  end.

(** [int(text)] of the Python library on an optional sign and decimal
    digits. *)
Definition digit_of (a : ascii) : option Z :=
  let n := Z.of_nat (nat_of_ascii a) in
  if (48 <=? n)%Z && (n <=? 57)%Z then Some (n - 48)%Z else None.

Fixpoint parse_digits (acc : Z) (s : string) : option Z :=
  match s with
  | EmptyString => Some acc
  | String.String a s' =>
      match digit_of a with
      | Some d => parse_digits (10 * acc + d)%Z s'
      | None => None
      end
  end.

Definition parse_int (s : string) : option Z :=
  match s with
  | EmptyString => None
  | String.String "-"%char (String.String _ _ as s') => Z.opp <$> parse_digits 0 s'
  | String.String "+"%char (String.String _ _ as s') => parse_digits 0 s'
  | _ => parse_digits 0 s
  end.

Definition int_conversion (v : value) : option Z :=
  match v with
  | VInt z => Some z
  | VBool b => Some (if b then 1 else 0)
  | VStr s => parse_int s
  | _ => None
  end.

(** Modelled from the spec: [to_number] of [vot.utilities], which is not
    among the sources.  "coerce applies conversion (integer/real parse) then
    rejects values outside [min, max] (inclusive bounds, either may be
    unset); failure on non-numeric input or out-of-range." *)
Definition to_number (v : value) (max_n min_n : option Z) : result value :=
  match int_conversion v with
  | None => Raise ConversionFailure
  | Some n =>
      if match max_n with Some hi => (hi <? n)%Z | None => false end
      then Raise ConversionFailure
      else if match min_n with Some lo => (n <? lo)%Z | None => false end
      then Raise ConversionFailure
      else Ok (VInt n)
  end.

(** ** Collaborators

    The functions that the module imports from [vot.utilities] and the
    resolver callbacks handed to [Object] are outside the sources; the engine
    is parameterised by them.  A resolver is named by the descriptor and
    receives the discriminator, the context (or [None]) and the keyword
    arguments.

    So are the methods that a class deriving from [Attributee] adds, of which
    the engine meets [__iter__] alone, when [List.coerce] is handed an
    instance: [instance_iter c d] is [None] when the class [c] defines no
    [__iter__], so that its instances are no [Iterable]; otherwise it is what
    [iter] of an instance with the [__dict__] [d] yields, or the exception
    that [__iter__] raises. *)
Class Externals (W : Type) : Type := {
  resolvers : string → value → option context → dict → M W value;
  import_class : string → M W value;
  to_logical : value → result value;
  to_string : value → result value;
  class_fullname : value → string;
  class_string : value → string;
  instance_iter : klass → dict → option (result (list value))
}.

(** ** Descriptor properties *)

(** [Attribute.default], overridden by [Include.default]. *)
Definition default (f : attr) : value :=
  match f with
  | Attribute d | Nested _ _ d | Integer _ _ d | Boolean d | String d
  | List _ _ d | Map _ d | Object _ d | Callable d => d
  | Include _ _ => VDict []
  end.

(** The [_default] attribute itself; [Include.__init__] passes no default. *)
Definition stored_default (f : attr) : value :=
  match f with
  | Include _ _ => VUndefined
  | _ => default f
  end.

(** [Attribute.required], overridden by [Nested.required]. *)
Definition required (f : attr) : bool :=
  match f with
  | Nested _ r d => is_undefined d && r
  | Include _ r => is_undefined VUndefined && r
  | _ => is_undefined (stored_default f)
  end.

Definition is_Include (f : attr) : bool :=
  match f with
  | Include _ _ => true
  | _ => false
  end.

(** [Include.filter] on the declared attributes of the included class. *)
Fixpoint filter_attributes (acls : klass) (kwargs : dict) {struct acls} : dict :=
  match acls with
  | Klass _ attributes =>
      fold_left
        (fun filtered '(aname, afield) =>
           match afield with
           | Include acls' _ => dict_update filtered (filter_attributes acls' kwargs)
           | _ =>
               match dict_get kwargs aname with
               | Some v => dict_set filtered aname v
               | None => filtered
               end
           end)
        attributes []
  end.

Definition Include_filter (f : attr) (kwargs : dict) : dict :=
  match f with
  | Include acls _ => filter_attributes acls kwargs
  | _ => []
  end.

(** [enumerate(items)] *)
Definition enumerate {A : Type} (items : list A) : list (nat * A) :=
  imap (fun i x => (i, x)) items.

(** ** Coercion *)

Section Coerce.
Context {W : Type} `{!Externals W}.

(** [dict(key=k, **context)]: a keyword given twice is a [TypeError]. *)
Definition with_key (k : value) (ctx : context) : M W context :=
  match dict_get ctx "key" with
  | Some _ => raise TypeError
  | None => mret (("key", k) :: ctx)
  end.

Definition context_or_empty (ctx : option context) : context :=
  match ctx with
  | Some c => c
  | None => []
  end.

(** [Nested.coerce] *)
Definition Nested_coerce (_acls : option (dict → M W value)) (v : value)
  (_ : option context) : M W value :=
  match v with
  | VNone => mret VNone
  | VUndefined => mret v
  | VDict d | VReadonlyMapping d => new ← get_slot "_acls" _acls; new d
  | _ => raise AssertionError
  end.

(** [Number.coerce] *)
Definition Number_coerce (_val_min _val_max : option (option Z)) (v : value)
  (_ : option context) : M W value :=
  max_n ← get_slot "_val_max" _val_max;
  min_n ← get_slot "_val_min" _val_min;
  lift (to_number v max_n min_n).

(** [List.coerce]: a string is split, a dict gives its values, and what is
    then an [Iterable] is enumerated: a list, a [ReadonlyMapping], which
    iterates over its keys, or an instance whose class defines [__iter__]. *)
Definition List_coerce_items (_contains : option (value → option context → M W value))
  (ctx : context) (items : list value) : M W value :=
  VList <$> mapM (fun '(i, x) =>
                    elem ← get_slot "_contains" _contains;
                    ctx' ← with_key (VInt (Z.of_nat i)) ctx;
                    elem x (Some ctx'))
              (enumerate items).

Definition List_coerce (_contains : option (value → option context → M W value))
  (_separator : option string) (v : value) (ctx : option context) : M W value :=
  match v with
  | VStr s =>
      sep ← get_slot "_separator" _separator;
      parts ← lift (str_split s sep);
      List_coerce_items _contains (context_or_empty ctx) (VStr <$> parts)
  | VDict d => List_coerce_items _contains (context_or_empty ctx) (dict_values d)
  | VList l => List_coerce_items _contains (context_or_empty ctx) l
  | VReadonlyMapping d =>
      List_coerce_items _contains (context_or_empty ctx) (VStr <$> dict_keys d)
  | VInstance c d =>
      match instance_iter c d with
      | Some iterated =>
          items ← lift iterated;
          List_coerce_items _contains (context_or_empty ctx) items
      | None => raise (UnableToConvert "list")
      end
  | _ => raise (UnableToConvert "list")
  end.

(** [Map.coerce]; [_container] is the [dict] factory. *)
Definition Map_coerce (_contains : option (value → option context → M W value))
  (_container : option unit) (v : value) (ctx : option context) : M W value :=
  match v with
  | VDict d | VReadonlyMapping d =>
      _ ← get_slot "_container" _container;
      VReadonlyMapping <$>
        foldM (fun container '(name, data) =>
                 elem ← get_slot "_contains" _contains;
                 ctx' ← with_key (VStr name) (context_or_empty ctx);
                 x ← elem data (Some ctx');
                 mret (dict_set container name x))
              d []
  | _ => raise (UnableToConvert "dict")
  end.

(** [Object.coerce] *)
Definition Object_coerce (_resolver : option string) (v : value)
  (ctx : option context) : M W value :=
  match v with
  | VDict d =>
      let class_name := match dict_get d "type" with Some t => t | None => VNone end in
      r ← get_slot "_resolver" _resolver;
      resolvers r class_name ctx (List.filter (fun kv => negb (String.eqb kv.1 "type")) d)
  | _ => raise AssertionError
  end.

(** [Callable.coerce] *)
Definition Callable_coerce (v : value) (_ : option context) : M W value :=
  match v with
  | VFunction _ _ | VClass _ _ => mret v
  | VStr s =>
      caltype ← import_class s;
      match caltype with
      | VFunction q _ => mret (VFunction q (Some s))
      | VClass c _ => mret (VClass c (Some s))
      | _ => raise AssertionError
      end
  | _ => raise AssertionError
  end.

(** State of the loop of [Attributee.__init__]. *)
Record init_state : Type := InitState {
  self_dict : dict;
  unconsumed : gset string;
  unspecified : gset string
}.

(** One iteration of the loop of [Attributee.__init__], for the attribute
    [aname] with descriptor [afield], whose [coerce] method is
    [coerce_afield]. *)
Definition init_attribute (cls : klass) (kwargs : dict) (aname : string)
  (afield : attr) (coerce_afield : value → option context → M W value)
  (st : init_state) : M W init_state :=
  let self := VInstance cls (self_dict st) in
  if is_Include afield then
    let iargs := Include_filter afield kwargs in
    x ← coerce_afield (VDict iargs) (Some [("parent", self)]);
    mret {| self_dict := dict_set (self_dict st) aname x;
            unconsumed := unconsumed st ∖ list_to_set (dict_keys iargs) ∖ {[aname]};
            unspecified := unspecified st ∖ list_to_set (dict_keys iargs) ∖ {[aname]} |}
  else
    match (match dict_get kwargs aname with
           | None => if negb (required afield) then Some (default afield) else None
           | Some avalue => Some avalue
           end) with
    | None => mret st
    | Some avalue =>
        x ← coerce_afield avalue (Some [("parent", self)]);
        mret {| self_dict := dict_set (self_dict st) aname x;
                unconsumed := unconsumed st ∖ {[aname]};
                unspecified := unspecified st ∖ {[aname]} |}
    end.

(** The two checks that end [Attributee.__init__]. *)
Definition init_checks (st : init_state) : M W dict :=
  if decide (unspecified st ≠ ∅) then raise (MissingArguments (unspecified st))
  else if decide (unconsumed st ≠ ∅) then raise (UnsupportedArguments (unconsumed st))
  else mret (self_dict st).

Definition init_start (attributes : list (string * attr)) (self : dict) (kwargs : dict)
  : init_state :=
  {| self_dict := self;
     unconsumed := list_to_set (dict_keys kwargs);
     unspecified := list_to_set (dict_keys attributes) |}.

(** [coerce] dispatches on the class of the descriptor;
    [Attributee___init__ cls self kwargs] runs the constructor of the base
    class on an instance of [cls] whose [__dict__] is [self]. *)
Fixpoint coerce (f : attr) {struct f} : value → option context → M W value :=
  match f with
  | Attribute _ => fun v _ => mret v
  | Nested acls _ _ | Include acls _ =>
      Nested_coerce (Some (fun kwargs =>
                             VInstance acls <$> Attributee___init__ acls [] kwargs))
  | Integer lo hi _ => Number_coerce (Some lo) (Some hi)
  | Boolean _ => fun v _ => lift (to_logical v)
  | String _ => fun v _ => lift (to_string v)
  | List contains separator _ => List_coerce (Some (coerce contains)) (Some separator)
  | Map contains _ => Map_coerce (Some (coerce contains)) (Some ())
  | Object resolver _ => Object_coerce (Some resolver)
  | Callable _ => Callable_coerce
  end
with Attributee___init__ (cls : klass) {struct cls} : dict → dict → M W dict :=
  match cls with
  | Klass _ attributes =>
      fun self kwargs =>
        st ← foldM (fun st '(aname, afield) =>
                      init_attribute cls kwargs aname afield (coerce afield) st)
                   attributes (init_start attributes self kwargs);
        init_checks st
  end.

(** The loop of [Attributee.__init__] over the declared attributes. *)
Definition init_loop (cls : klass) (self kwargs : dict) : M W init_state :=
  foldM (fun st '(aname, afield) =>
           init_attribute cls kwargs aname afield (coerce afield) st)
    (declared_attributes cls) (init_start (declared_attributes cls) self kwargs).

(** Instantiating [cls] with keyword arguments. *)
Definition new (cls : klass) (kwargs : dict) : M W value :=
  VInstance cls <$> Attributee___init__ cls [] kwargs.

(** [default_object_resolver]; every class of the embedding derives from
    [Attributee]. *)
Definition default_object_resolver (typename : value) (_ : option context)
  (kwargs : dict) : M W value :=
  match typename with
  | VStr n =>
      clstype ← import_class n;
      match clstype with
      | VClass c _ => new c kwargs
      | _ => raise TypeError
      end
  | _ => raise TypeError
  end.
End Coerce.

(** ** Serialisation *)

Section Dump.
Context {W : Type} `{!Externals W}.

(** [dump] of a descriptor on a text value: [List.dump] iterates over the
    characters of a string and over the keys of a mapping. *)
Fixpoint attr_dump_text (f : attr) (s : string) {struct f} : result value :=
  match f with
  | Attribute _ | Integer _ _ _ | Boolean _ | String _ => Ok (VStr s)
  | Nested _ _ _ | Include _ _ | Object _ _ => Raise (NoAttribute "dump")
  | List contains _ _ =>
      VList <$> mapR (fun ch => attr_dump_text contains (String.String ch ""))
                  (list_ascii_of_string s)
  | Map _ _ => Raise (NoAttribute "items")
  | Callable _ => Ok (VStr (class_fullname (VStr s)))
  end.

Section Attributes.
Variable dump : attr → value → result value.

(** The loop of [Attributee.dump] over the declared attributes, reading
    the instance [__dict__] [d]. *)
Definition dump_attributes (attributes : list (string * attr)) (d : dict)
  : result dict :=
  foldR (fun serialized '(aname, afield) =>
           match afield with
           | Include _ _ =>
               sub ← with_item aname (dump afield) (Raise (NoAttribute "dump")) d;
               match sub with
               | VDict e => Ok (dict_update serialized e)
               | _ => Raise TypeError
               end
           | Attribute dflt | Nested _ _ dflt | Integer _ _ dflt | Boolean dflt
           | String dflt | List _ _ dflt | Map _ dflt | Object _ dflt
           | Callable dflt =>
               x ← with_item aname (dump afield) (dump afield dflt) d;
               Ok (dict_set serialized aname x)
           end)
        attributes [].
End Attributes.

(** [dump] of a descriptor, dispatching on its class.  The instance cases
    run [Attributee.dump] of the value. *)
Fixpoint attr_dump (f : attr) (v : value) {struct v} : result value :=
  match f with
  | Attribute _ | Integer _ _ _ | Boolean _ | String _ => Ok v
  | Nested _ _ _ | Include _ _ =>
      match v with
      | VNone => Ok VNone
      | VInstance (Klass _ attributes) d => VDict <$> dump_attributes attr_dump attributes d
      | VClass _ _ => Raise TypeError
      | _ => Raise (NoAttribute "dump")
      end
  | List contains _ _ =>
      match v with
      | VList l => VList <$> mapR (attr_dump contains) l
      | VStr s =>
          VList <$> mapR (fun ch => attr_dump_text contains (String.String ch ""))
                      (list_ascii_of_string s)
      | VDict d | VReadonlyMapping d =>
          VList <$> mapR (attr_dump_text contains) (dict_keys d)
      | _ => Raise TypeError
      end
  | Map contains _ =>
      match v with
      | VDict d | VReadonlyMapping d =>
          VDict <$> foldR (fun out '(k, x) =>
                             y ← attr_dump contains x; Ok (dict_set out k y))
                      d []
      | _ => Raise (NoAttribute "items")
      end
  | Object _ _ =>
      match v with
      | VInstance (Klass _ attributes) d =>
          data ← dump_attributes attr_dump attributes d;
          Ok (VDict (dict_set data "type" (VStr (class_fullname v))))
      | VClass _ _ => Raise TypeError
      | _ => Raise (NoAttribute "dump")
      end
  | Callable _ =>
      match v with
      | VFunction _ (Some r) | VClass _ (Some r) => Ok (VStr r)
      | VClass _ None => Ok (VStr (class_string v))
      | _ => Ok (VStr (class_fullname v))
      end
  end.

(** [Attributee.dump] *)
Definition Attributee_dump (self : value) : result dict :=
  match self with
  | VInstance cls d => dump_attributes attr_dump (declared_attributes cls) d
  | VClass _ _ => Raise TypeError
  | _ => Raise (NoAttribute "dump")
  end.
End Dump.

(** ** Defining descriptors

    Each function follows the statements of the [__init__] of its class in
    order; [coerce] runs on the object as far as it has been initialised. *)

Section Init.
Context {W : Type} `{!Externals W}.

(** [Attribute.__init__], with the [coerce] method of the object under
    construction. *)
Definition Attribute___init__ (self_coerce : value → option context → M W value)
  (default : value) : M W value :=
  if is_undefined default then mret default else self_coerce default (Some []).

Definition Attribute_new (default : value) : M W attr :=
  d ← Attribute___init__ (fun v _ => mret v) default;
  mret (Attribute d).

(** [Nested.__init__]: the base class is checked, [_acls] and [_required]
    are assigned, then the default is coerced. *)
Definition Nested___init__ (acls : value) : M W (klass * bool) :=
  match acls with
  | VClass c _ =>
      mret (c, existsb (fun '(_, afield) => required afield) (declared_attributes c))
  | VFunction _ _ => raise IllegalBaseClass
  | _ => raise TypeError
  end.

Definition Nested_new (acls : value) (default : value) : M W attr :=
  '(c, r) ← Nested___init__ acls;
  d ← Attribute___init__ (Nested_coerce (Some (new c))) default;
  mret (Nested c r d).

Definition Include_new (acls : value) : M W attr :=
  '(c, r) ← Nested___init__ acls;
  _ ← Attribute___init__ (Nested_coerce (Some (new c))) VUndefined;
  mret (Include c r).

(** [Integer.__init__]: [Number.__init__] assigns the bounds, then the
    default is coerced. *)
Definition Integer_new (val_min val_max : option Z) (default : value) : M W attr :=
  d ← Attribute___init__ (Number_coerce (Some val_min) (Some val_max)) default;
  mret (Integer val_min val_max d).

Definition Boolean_new (default : value) : M W attr :=
  d ← Attribute___init__ (fun v _ => lift (to_logical v)) default;
  mret (Boolean d).

Definition String_new (default : value) : M W attr :=
  d ← Attribute___init__ (fun v _ => lift (to_string v)) default;
  mret (String d).

(** [List.__init__]: the default is coerced first, [_separator] and
    [_contains] are assigned after it. *)
Definition List_new (contains : attr) (separator : string) (default : value)
  : M W attr :=
  d ← Attribute___init__ (List_coerce None None) default;
  mret (List contains separator d).

(** [Map.__init__]: the default is coerced first, [_contains] and
    [_container] are assigned after it. *)
Definition Map_new (contains : attr) (default : value) : M W attr :=
  d ← Attribute___init__ (Map_coerce None None) default;
  mret (Map contains d).

(** [Object.__init__]: the default is coerced first, [_resolver] is
    assigned after it. *)
Definition Object_new (resolver : string) (default : value) : M W attr :=
  d ← Attribute___init__ (Object_coerce None) default;
  mret (Object resolver d).

Definition Callable_new (default : value) : M W attr :=
  d ← Attribute___init__ Callable_coerce default;
  mret (Callable d).
End Init.

(** ** The metaclass *)

(** An entry of a class namespace is a descriptor or anything else. *)
Inductive member : Type :=
| Descriptor (f : attr)
| Plain.

(** A class object as the metaclass sees it in a method resolution order: a
    class created by [AttributeeMeta], with its [_declared_attributes] and
    what is left of its namespace, or any other class with its [__dict__]. *)
Inductive pyclass : Type :=
| PyAttributee (cls : klass) (namespace : list (string * member))
| PyPlain (namespace : list (string * member)).

(** [AttributeeMeta._get_fields] without [pop]. *)
Definition _get_fields (attrs : list (string * member)) : list (string * attr) :=
  flat_map (fun '(field_name, field_value) =>
              match field_value with
              | Descriptor f => [(field_name, f)]
              | Plain => []
              end) attrs.

(** The deletions of [_get_fields(attrs, pop=True)]. *)
Definition _pop_fields (attrs : list (string * member)) : list (string * member) :=
  fold_left (fun attrs' '(field_name, _) => dict_del attrs' field_name)
    (_get_fields attrs) attrs.

(** [getattr(base, "_declared_attributes", base.__dict__)] seen through
    [_get_fields]. *)
Definition base_fields (base : pyclass) : list (string * attr) :=
  match base with
  | PyAttributee cls _ => _get_fields (map (fun '(n, f) => (n, Descriptor f))
                                         (declared_attributes cls))
  | PyPlain namespace => _get_fields namespace
  end.

(** [AttributeeMeta._get_fields_by_mro], on [mro[1:]]: the bases are visited
    from the end of the method resolution order to its front. *)
Definition _get_fields_by_mro (mro_tail : list pyclass) : list (string * attr) :=
  concat (map base_fields (rev mro_tail)).

(** [AttributeeMeta.__new__]; [mro_tail] is the method resolution order that
    [type.__new__] computes from the bases, without the new class. *)
Definition AttributeeMeta___new__ (name : string) (mro_tail : list pyclass)
  (attrs : list (string * member)) : pyclass :=
  let cls_attributes := _get_fields attrs in
  let inherited_attributes := _get_fields_by_mro mro_tail in
  PyAttributee (Klass name (dict_of (inherited_attributes ++ cls_attributes)))
    (_pop_fields attrs).

Definition py_declared (c : pyclass) : list (string * attr) :=
  match c with
  | PyAttributee cls _ => declared_attributes cls
  | PyPlain _ => []
  end.

(** [object]: none of the entries of its [__dict__] is a descriptor. *)
Definition object_class : pyclass :=
  PyPlain [("__init__", Plain); ("__setattr__", Plain); ("__getattribute__", Plain)].

(** A chain of class statements, each class deriving from the one before it,
    the first from [object]: with single inheritance the method resolution
    order of a class is the class followed by that of its parent.  The
    result is the method resolution order of the last class. *)
Fixpoint subclass_chain (mro : list pyclass)
  (bodies : list (string * list (string * member))) : list pyclass :=
  match bodies with
  | [] => mro
  | (name, attrs) :: rest =>
      subclass_chain (AttributeeMeta___new__ name mro attrs :: mro) rest
  end.

(** The class that a chain of class statements ends with. *)
Definition chain_class (bodies : list (string * list (string * member))) : pyclass :=
  hd object_class (subclass_chain [object_class] bodies).

(** ** Attribute assignment on instances *)

(** What the classes of the method resolution order of [type(self)] hold
    under a name, as far as [object.__setattr__] tells them apart: a data
    descriptor, whose [__set__] is called with the instance and the value
    and answers with the outcome and the instance after it; or anything
    else, nothing at all included. *)
Inductive class_entry : Type :=
| DataDescriptor (__set__ : value → value → result unit * value)
| NoDataDescriptor.

(** [property.__set__] of a property without a setter. *)
Definition property___set__ (self _ : value) : result unit * value :=
  (Raise CantSetAttribute, self).

(** [__set__] of the [__class__] attribute that [object] defines: the value
    has to be a class; the classes of the embedding derive from [Attributee]
    and their instances share one layout. *)
Definition object___class___set (self v : value) : result unit * value :=
  match self, v with
  | VInstance _ d, VClass c _ => (Ok (), VInstance c d)
  | _, _ => (Raise TypeError, self)
  end.

(** [__set__] of the [__dict__] attribute of instances: the value has to be
    a dict. *)
Definition object___dict___set (self v : value) : result unit * value :=
  match self, v with
  | VInstance cls _, VDict d => (Ok (), VInstance cls d)
  | _, _ => (Raise TypeError, self)
  end.

(** The entries of a class that derives from [Attributee] and adds the
    properties [properties], none with a setter, and no other data
    descriptor: these properties, [__class__] of [object], and [__dict__]
    and [__weakref__] of the instances of [Attributee], the latter not
    writable. *)
Definition class_entries (properties : list string) (key : string) : class_entry :=
  if bool_decide (key ∈ properties) then DataDescriptor property___set__
  else if String.eqb key "__class__" then DataDescriptor object___class___set
  else if String.eqb key "__dict__" then DataDescriptor object___dict___set
  else if String.eqb key "__weakref__" then DataDescriptor property___set__
  else NoDataDescriptor.

(** [object.__setattr__(self, key, v)]: a data descriptor of the type takes
    the assignment, otherwise the value goes to the instance [__dict__]. *)
Definition object___setattr__ (type_lookup : string → class_entry) (key : string)
  (v : value) (self : value) : result unit * value :=
  match type_lookup key with
  | DataDescriptor __set__ => __set__ self v
  | NoDataDescriptor =>
      match self with
      | VInstance cls d => (Ok (), VInstance cls (dict_set d key v))
      | _ => (Raise (NoAttribute key), self)
      end
  end.

(** [Attributee.__setattr__]: the outcome of the call and the instance after
    it; [type_lookup] tells what the type of the instance holds under a
    name. *)
Definition Attributee___setattr__ (type_lookup : string → class_entry) (key : string)
  (v : value) (self : value) : result unit * value :=
  match self with
  | VInstance cls d =>
      match dict_get (declared_attributes cls) key with
      | Some _ => (Raise (Readonly key), self)
      | None => object___setattr__ type_lookup key v self
      end
  | _ => (Raise TypeError, self)
  end.

(** [getattr(self, key)] on the instance [__dict__]. *)
Definition instance_getattr (self : value) (key : string) : option value :=
  match self with
  | VInstance _ d => dict_get d key
  | _ => None
  end.

(** ** Names carried by a failure of the constructor *)

Definition reported_names (e : exn) : gset string :=
  match e with
  | MissingArguments names | UnsupportedArguments names => names
  | _ => ∅
  end.

(** ** The class [Stack] ([vot/stack/__init__.py]) *)

(** Its declared attributes: [title = String()], [dataset = String(default="")],
    [url = String(default="")], [deprecated = Boolean(default=False)] and
    [experiments = Map(Object(experiment_resolver))]. *)
Definition Stack : klass :=
  Klass "Stack"
    [("title", String VUndefined); ("dataset", String (VStr ""));
     ("url", String (VStr "")); ("deprecated", Boolean (VBool false));
     ("experiments", Map (Object "experiment_resolver" VUndefined) VUndefined)].

(** The properties of the class: [workspace], which has no setter. *)
Definition Stack_properties : list string := ["workspace"].

(** [Stack.__iter__]: [iter(self.experiments.values())] on the instance
    [__dict__]. *)
Definition Stack___iter__ (d : dict) : result (list value) :=
  match dict_get d "experiments" with
  | Some (VDict e) | Some (VReadonlyMapping e) => Ok (snd <$> e)
  | Some _ => Raise (NoAttribute "values")
  | None => Raise (NoAttribute "experiments")
  end.

(** ** Test doubles and sample classes *)

(** Of the classes of the samples, [Stack] alone defines [__iter__]. *)
Definition sample_iter (c : klass) (d : dict) : option (result (list value)) :=
  if String.eqb (klass_name c) "Stack" then Some (Stack___iter__ d) else None.

(** Collaborators that resolve nothing, over a trivial state. *)
Definition plain_externals : Externals unit := {|
  resolvers := fun r _ _ _ => raise (NotFound r);
  import_class := fun n => raise (NotFound n);
  to_logical := fun v => match v with VBool _ => Ok v | _ => Raise ConversionFailure end;
  to_string := fun v => match v with VStr _ => Ok v | _ => Raise ConversionFailure end;
  class_fullname := fun v => match v with VInstance c _ => klass_name c | _ => "" end;
  class_string := fun v => match v with VClass c _ => klass_name c | _ => "" end;
  instance_iter := sample_iter
|}.

(** [Point{x: Integer(), y: Integer(default=0)}] *)
Definition Point : klass :=
  Klass "Point" [("x", Integer None None VUndefined); ("y", Integer None None (VInt 0))].

(** [Circle{radius: Integer()}] *)
Definition Circle : klass :=
  Klass "Circle" [("radius", Integer None None VUndefined)].

(** [Tags{tags: List(Attribute())}] *)
Definition Tags : klass :=
  Klass "Tags" [("tags", List (Attribute VUndefined) "," VUndefined)].

(** [Gallery{title: String(), shapes: Map(Object())}] *)
Definition Gallery : klass :=
  Klass "Gallery"
    [("title", String VUndefined);
     ("shapes", Map (Object "default_object_resolver" VUndefined) VUndefined)].

(** [Drawing{shape: Object()}] *)
Definition Drawing : klass :=
  Klass "Drawing" [("shape", Object "default_object_resolver" VUndefined)].

(** A record of the calls made to resolvers. *)
Definition call : Type := string * value * option context * dict.

(** Collaborators over a call log: the registry knows [Circle], every
    resolver call is logged and then served by [default_object_resolver].
    [depth] bounds the nesting of resolver calls, as the interpreter's
    recursion limit does. *)
Fixpoint logging_externals (depth : nat) : Externals (list call) := {|
  resolvers := fun r typename ctx kwargs w =>
    let w' := w ++ [(r, typename, ctx, kwargs)] in
    match depth with
    | O => (Raise (OtherError "RecursionError"), w')
    | S n => @default_object_resolver _ (logging_externals n) typename ctx kwargs w'
    end;
  import_class := fun n =>
    if String.eqb n "Circle" then mret (VClass Circle None) else raise (NotFound n);
  to_logical := fun v => match v with VBool _ => Ok v | _ => Raise ConversionFailure end;
  to_string := fun v => match v with VStr _ => Ok v | _ => Raise ConversionFailure end;
  class_fullname := fun v => match v with VInstance c _ => klass_name c | _ => "" end;
  class_string := fun v => match v with VClass c _ => klass_name c | _ => "" end;
  instance_iter := sample_iter
|}.

(** Class statements for a chain [Attributee <- Shape <- Square] and for a
    diamond [Base <- Left, Right <- Bottom]. *)
Definition Attributee_body : list (string * member) :=
  [("__init__", Plain); ("__setattr__", Plain); ("dump", Plain)].

Definition Shape_body : list (string * member) :=
  [("name", Descriptor (String VUndefined)); ("sides", Descriptor (Integer None None (VInt 0)));
   ("area", Plain)].

Definition Square_body : list (string * member) :=
  [("side", Descriptor (Integer (Some 0) None VUndefined));
   ("sides", Descriptor (Integer None None (VInt 4)))].

Definition Base_class : pyclass :=
  AttributeeMeta___new__ "Base" [object_class] [("x", Descriptor (Integer None None VUndefined))].

Definition Left_class : pyclass :=
  AttributeeMeta___new__ "Left" [Base_class; object_class]
    [("y", Descriptor (Boolean VUndefined))].

Definition Right_class : pyclass :=
  AttributeeMeta___new__ "Right" [Base_class; object_class]
    [("x", Descriptor (String VUndefined))].

Definition Bottom_class : pyclass :=
  AttributeeMeta___new__ "Bottom" [Left_class; Right_class; Base_class; object_class] [].

(** ** What a constructor call leaves unsatisfied and unclaimed *)

(** [k in d] *)
Definition dict_has {V : Type} (d : list (string * V)) (k : string) : bool :=
  match dict_get d k with
  | Some _ => true
  | None => false
  end.

(** The declared attributes, not includes, that are required and have no
    entry in the keyword arguments. *)
Definition missing_arguments (cls : klass) (kwargs : dict) : gset string :=
  list_to_set
    (flat_map (fun '(aname, afield) =>
                 if negb (is_Include afield) && negb (dict_has kwargs aname)
                    && required afield
                 then [aname] else [])
       (declared_attributes cls)).

(** The keyword arguments that the includes of the class take. *)
Definition included_keys (cls : klass) (kwargs : dict) : gset string :=
  list_to_set
    (flat_map (fun '(_, afield) => dict_keys (Include_filter afield kwargs))
       (declared_attributes cls)).

(** The keyword arguments that are neither a declared name nor taken by an
    include. *)
Definition unsupported_arguments (cls : klass) (kwargs : dict) : gset string :=
  list_to_set (dict_keys kwargs) ∖ list_to_set (dict_keys (declared_attributes cls))
    ∖ included_keys cls kwargs.

(** The names that the loop of the constructor removes from its two sets
    while it goes through the attributes [l]. *)
Definition processed_names (kwargs : dict) (l : list (string * attr)) : gset string :=
  list_to_set
    (flat_map (fun '(aname, afield) =>
                 if is_Include afield
                 then dict_keys (Include_filter afield kwargs) ++ [aname]
                 else if dict_has kwargs aname || negb (required afield)
                      then [aname] else [])
       l).

(** ** What a dump of a constructed instance is made of *)

(** The value that the constructor hands to [coerce] for an attribute: the
    filtered keyword arguments for an include, else the entry of the
    keyword arguments, else the default. *)
Definition field_input (kwargs : dict) (aname : string) (afield : attr) : value :=
  if is_Include afield then VDict (Include_filter afield kwargs)
  else match dict_get kwargs aname with
       | Some v => v
       | None => default afield
       end.

(** The keyword arguments with the defaults made explicit, in the order of
    declaration. *)
Definition materialized (cls : klass) (kwargs : dict) : dict :=
  (fun '(aname, afield) => (aname, field_input kwargs aname afield))
    <$> declared_attributes cls.

(** The loop of [Attributee.dump] on attributes paired with their values. *)
Definition dump_entries (dump : attr → value → result value)
  (stored : list (string * attr * value)) : result dict :=
  foldR (fun serialized '(aname, afield, x) =>
           if is_Include afield then
             sub ← dump afield x;
             match sub with
             | VDict e => Ok (dict_update serialized e)
             | _ => Raise TypeError
             end
           else
             y ← dump afield x;
             Ok (dict_set serialized aname y))
    stored [].

Section RoundTripNotions.
Context {W : Type} `{!Externals W}.

(** [x] is what [coerce] returned for the input of the attribute, in the
    context that the constructor of [cls] passes. *)
Definition coerced_from (cls : klass) (kwargs : dict) (field : string * attr)
  (x : value) : Prop :=
  ∃ self w1 w2,
    coerce field.2 (field_input kwargs field.1 field.2)
      (Some [("parent", VInstance cls self)]) w1 = (Ok x, w2).

(** The coercions of a construction that skips no attribute, in their
    order: the input of each attribute of [l] is coerced in the state of the
    collaborators that the attribute before it left, with the instance as
    built so far, whose [__dict__] is [self], as parent; [xs] are the values
    returned and [w'] is the state after the last call. *)
Fixpoint coerced_in_turn (cls : klass) (kwargs : dict) (l : list (string * attr))
  (self : dict) (w : W) (xs : list value) (w' : W) : Prop :=
  match l, xs with
  | [], [] => w' = w
  | (aname, afield) :: l', x :: xs' =>
      ∃ w1, coerce afield (field_input kwargs aname afield)
              (Some [("parent", VInstance cls self)]) w = (Ok x, w1)
            ∧ coerced_in_turn cls kwargs l' (self ++ [(aname, x)]) w1 xs' w'
  | _, _ => False
  end.

(** [coerce], in the context that a constructor passes, and [dump] of the
    attribute leave the value as it is. *)
Definition fixed_point (afield : attr) (v : value) : Prop :=
  (∀ parent w, coerce afield v (Some [("parent", parent)]) w = (Ok v, w)) ∧
  attr_dump afield v = Ok v.
End RoundTripNotions.

(** ** Paths of the Python library ([posixpath]) *)

(** [os.path.isabs]: the path starts with a slash. *)
Definition isabs (s : string) : bool := String.prefix "/" s.

(** [path.endswith("/")] *)
Fixpoint ends_with_slash (s : string) : bool :=
  match s with
  | EmptyString => false
  | String.String a s' =>
      match s' with
      | EmptyString => Ascii.eqb a "/"
      | String.String _ _ => ends_with_slash s'
      end
  end.

(** One round of the loop of [os.path.join]: an absolute segment replaces
    the path, any other is appended after a slash, which is left out when
    the path is empty or ends with one. *)
Definition join_segment (path b : string) : string :=
  if String.prefix "/" b then b
  else if match path with EmptyString => true | _ => ends_with_slash path end
       then String.append path b
       else String.append path (String.append "/" b).

(** [os.path.join(a, *p)] *)
Definition path_join (a : string) (p : list string) : string :=
  fold_left join_segment p a.

Fixpoint has_slash (s : string) : bool :=
  match s with
  | EmptyString => false
  | String.String a s' => Ascii.eqb a "/" || has_slash s'
  end.

Fixpoint all_slashes (s : string) : bool :=
  match s with
  | EmptyString => true
  | String.String a s' => Ascii.eqb a "/" && all_slashes s'
  end.

(** [p[:p.rfind("/") + 1]] *)
Fixpoint head_to_last_slash (s : string) : string :=
  match s with
  | EmptyString => EmptyString
  | String.String a s' =>
      if has_slash s' then String.String a (head_to_last_slash s')
      else if Ascii.eqb a "/" then "/" else ""
  end.

(** [head.rstrip("/")] *)
Fixpoint rstrip_slash (s : string) : string :=
  match s with
  | EmptyString => EmptyString
  | String.String a s' =>
      if Ascii.eqb a "/" && all_slashes s' then "" else String.String a (rstrip_slash s')
  end.

(** [os.path.dirname] *)
Definition dirname (p : string) : string :=
  let head := head_to_last_slash p in
  if negb (String.eqb head "") && negb (all_slashes head) then rstrip_slash head else head.

(** ** Finding a stack file ([vot/stack/__init__.py]) *)

(** The loop of [resolve_stack] over the directories; [isfile] tells the
    regular files of the file system ([os.path.isfile]). *)
Fixpoint resolve_in (isfile : string → bool) (name : string) (directories : list string)
  : option string :=
  match directories with
  | [] => None
  | directory :: rest =>
      let full := path_join directory [name] in
      if isfile full then Some full else resolve_in isfile name rest
  end.

(** [resolve_stack(name, *directories)]; [package_dir] is
    [os.path.dirname(__file__)], the directory of the integrated stacks. *)
Definition resolve_stack (isfile : string → bool) (package_dir : string) (name : string)
  (directories : list string) : option string :=
  if isabs name then (if isfile name then Some name else None)
  else
    match resolve_in isfile name directories with
    | Some full => Some full
    | None =>
        let full := path_join package_dir [String.append name ".yaml"] in
        if isfile full then Some full else None
    end.

(** ** Local storage ([vot/workspace.py]) *)

(** The calls that [LocalStorage] makes to [os], [open] and [shutil]. *)
Inductive fs_call : Type :=
| FsMakedirs (path : string)             (* os.makedirs(path, exist_ok=True) *)
| FsOpen (path : string) (mode : string) (* open(path, mode=mode, newline=...) *)
| FsMove (src dst : string).             (* shutil.move(src, dst) *)

(** The operating system as the storage meets it: for a call and the calls
    made before it, the name of the exception that the call raises, or
    [None] when it returns. *)
Definition os_model : Type := list fs_call → fs_call → option string.

(** The answer to a call.  [os.makedirs] of the empty path raises
    [FileNotFoundError] whatever the file system holds; every other call is
    up to the operating system. *)
Definition os_call (os : os_model) (before : list fs_call) (c : fs_call) : option string :=
  match c with
  | FsMakedirs EmptyString => Some "FileNotFoundError"
  | _ => os before c
  end.

(** What a method of [LocalStorage] does: it raises [IOError] itself, or it
    makes its calls in order, up to the first that raises. *)
Inductive storage_result : Type :=
| IOError (msg : string)                      (* raised by the method, no call made *)
| Calls (calls : list fs_call)                (* the calls made, each of which returned *)
| CallRaised (calls : list fs_call) (e : string). (* the calls made; the last raised e *)

(** The statements of a method that call the operating system, one after
    the other, after the calls [before]. *)
Fixpoint run_calls (os : os_model) (before calls : list fs_call) : storage_result :=
  match calls with
  | [] => Calls before
  | c :: rest =>
      match os_call os before c with
      | Some e => CallRaised (before ++ [c]) e
      | None => run_calls os (before ++ [c]) rest
      end
  end.

(** [LocalStorage.write] on a storage whose [base] is [base]. *)
Definition LocalStorage_write (os : os_model) (base path : string) (binary : bool)
  : storage_result :=
  if isabs path then IOError "Only relative paths allowed"
  else
    let full := path_join base [path] in
    let mode := if binary then "wb" else "w" in
    run_calls os [] [FsMakedirs (dirname full); FsOpen full mode].

(** [LocalStorage.copy] *)
Definition LocalStorage_copy (os : os_model) (base localfile destination : string)
  : storage_result :=
  if isabs destination then IOError "Only relative paths allowed"
  else
    let full := path_join base [destination] in
    run_calls os [] [FsMakedirs (dirname full); FsMove localfile (path_join base [full])].

(** [LocalStorage.substorage]: the base of the storage it returns. *)
Definition LocalStorage_substorage (base name : string) : string :=
  path_join base [name].

(** ** The input of a construction with its defaults made explicit *)

Section Materialized.
Context {W : Type} `{!Externals W}.

(** The descriptors whose [dump] returns the value as it is. *)
Definition is_scalar (f : attr) : bool :=
  match f with
  | Attribute _ | Integer _ _ _ | Boolean _ | String _ => true
  | _ => false
  end.

(** The keyword arguments that [Object.coerce] hands to the resolver. *)
Definition without_type (d : dict) : dict :=
  List.filter (fun kv => negb (String.eqb kv.1 "type")) d.

(** [materialized_value f v out]: the raw value [v], given for a field with
    the descriptor [f], is in the form that [dump] produces, and [out] is
    [v] with the defaults of the nested classes made explicit and the
    discriminator of a polymorphic entry put last.  A scalar is a value that
    [coerce] returns as it is; a list and a mapping are so item by item; a
    nested mapping is so as the keyword arguments of its class; a
    polymorphic entry names under ["type"] the class that the resolver
    constructs from the other entries, by the name that [class_fullname]
    gives for its instances.  Callables, whose [resname] any later
    resolution of the same object rewrites, are left out.

    [materialized_class cls kwargs out]: [out] lists, for the declared
    attributes of [cls] in their order, the entry of [kwargs] or else the
    default, each made explicit in turn; an include contributes the entries
    of its class for the keyword arguments that it filters. *)
Inductive materialized_value : attr → value → value → Prop :=
| mat_scalar (f : attr) (v : value) :
    is_scalar f = true →
    (∀ ctx w, coerce f v ctx w = (Ok v, w)) →
    materialized_value f v v
| mat_list (contains : attr) (separator : string) (dflt : value) (l outs : list value) :
    materialized_items contains l outs →
    materialized_value (List contains separator dflt) (VList l) (VList outs)
| mat_map (contains : attr) (dflt : value) (entries outs : dict) :
    NoDup (dict_keys entries) →
    materialized_entries contains entries outs →
    materialized_value (Map contains dflt) (VDict entries) (VDict outs)
| mat_nested_none (acls : klass) (r : bool) (dflt : value) :
    materialized_value (Nested acls r dflt) VNone VNone
| mat_nested (acls : klass) (r : bool) (dflt : value) (kwargs out : dict) :
    materialized_class acls kwargs out →
    materialized_value (Nested acls r dflt) (VDict kwargs) (VDict out)
| mat_object (resolver : string) (dflt : value) (kwargs : dict) (t : string)
    (cls : klass) (out : dict) :
    dict_get kwargs "type" = Some (VStr t) →
    (∀ ctx w x w',
       resolvers resolver (VStr t) ctx (without_type kwargs) w = (Ok x, w') →
       ∃ w1 w2, new cls (without_type kwargs) w1 = (Ok x, w2)) →
    (∀ d, class_fullname (VInstance cls d) = t) →
    materialized_class cls (without_type kwargs) out →
    materialized_value (Object resolver dflt) (VDict kwargs)
      (VDict (dict_set out "type" (VStr t)))
with materialized_items : attr → list value → list value → Prop :=
| mat_items_nil (contains : attr) : materialized_items contains [] []
| mat_items_cons (contains : attr) (v out : value) (l outs : list value) :
    materialized_value contains v out →
    materialized_items contains l outs →
    materialized_items contains (v :: l) (out :: outs)
with materialized_entries : attr → dict → dict → Prop :=
| mat_entries_nil (contains : attr) : materialized_entries contains [] []
| mat_entries_cons (contains : attr) (name : string) (v out : value) (entries outs : dict) :
    materialized_value contains v out →
    materialized_entries contains entries outs →
    materialized_entries contains ((name, v) :: entries) ((name, out) :: outs)
with materialized_class : klass → dict → dict → Prop :=
| mat_class (name : string) (attributes : list (string * attr)) (kwargs out : dict) :
    NoDup (dict_keys attributes) →
    materialized_fields attributes kwargs [] out →
    materialized_class (Klass name attributes) kwargs out
with materialized_fields : list (string * attr) → dict → dict → dict → Prop :=
| mat_fields_nil (kwargs acc : dict) : materialized_fields [] kwargs acc acc
| mat_fields_include (aname : string) (acls : klass) (r : bool)
    (rest : list (string * attr)) (kwargs acc sub out : dict) :
    materialized_class acls (filter_attributes acls kwargs) sub →
    materialized_fields rest kwargs (dict_update acc sub) out →
    materialized_fields ((aname, Include acls r) :: rest) kwargs acc out
| mat_fields_field (aname : string) (afield : attr) (rest : list (string * attr))
    (kwargs acc : dict) (y : value) (out : dict) :
    is_Include afield = false →
    materialized_value afield (field_input kwargs aname afield) y →
    materialized_fields rest kwargs (dict_set acc aname y) out →
    materialized_fields ((aname, afield) :: rest) kwargs acc out.

Scheme materialized_value_mut := Minimality for materialized_value Sort Prop
with materialized_items_mut := Minimality for materialized_items Sort Prop
with materialized_entries_mut := Minimality for materialized_entries Sort Prop
with materialized_class_mut := Minimality for materialized_class Sort Prop
with materialized_fields_mut := Minimality for materialized_fields Sort Prop.

Combined Scheme materialized_mutind from materialized_value_mut, materialized_items_mut,
  materialized_entries_mut, materialized_class_mut, materialized_fields_mut.
End Materialized.

(** * Properties *)

(** ** Dict lemmas *)

Section DictFacts.
Context {V : Type}.
Implicit Types (d : list (string * V)) (k : string) (v : V).

Lemma dict_get_set_eq d k v : dict_get (dict_set d k v) k = Some v.
Proof.
  induction d as [|[k' v'] d IH]; simpl.
  - by rewrite String.eqb_refl.
  - destruct (String.eqb k' k) eqn:E; simpl.
    + by rewrite String.eqb_refl.
    + by rewrite E.
Qed.

Lemma dict_get_set_ne d k k' v : k ≠ k' → dict_get (dict_set d k v) k' = dict_get d k'.
Proof.
  intros Hne. induction d as [|[k0 v0] d IH]; simpl.
  - destruct (String.eqb k k') eqn:E; [|done].
    apply String.eqb_eq in E. done.
  - destruct (String.eqb k0 k) eqn:E; simpl.
    + apply String.eqb_eq in E. subst k0.
      destruct (String.eqb k k') eqn:E'; [|done].
      apply String.eqb_eq in E'. done.
    + by rewrite IH.
Qed.

Lemma dict_get_Some_keys d k v : dict_get d k = Some v → k ∈ dict_keys d.
Proof.
  induction d as [|[k' v'] d IH]; simpl; [done|].
  destruct (String.eqb k' k) eqn:E.
  - apply String.eqb_eq in E. subst. intros _. apply list_elem_of_here.
  - intros H. apply list_elem_of_further. by apply IH.
Qed.

Lemma dict_get_None_keys d k : dict_get d k = None ↔ k ∉ dict_keys d.
Proof.
  induction d as [|[k' v'] d IH]; simpl.
  - split; [intros _; by apply not_elem_of_nil | done].
  - destruct (String.eqb k' k) eqn:E.
    + apply String.eqb_eq in E. subst. split; [done|].
      intros H. exfalso. apply H. apply list_elem_of_here.
    + apply String.eqb_neq in E. rewrite IH, not_elem_of_cons.
      split; [intros ?; split; [congruence | done] | by intros [_ ?]].
Qed.

Lemma dict_get_is_Some_keys d k : is_Some (dict_get d k) ↔ k ∈ dict_keys d.
Proof.
  destruct (dict_get d k) eqn:E.
  - split; [intros _; by eapply dict_get_Some_keys | by eauto].
  - apply dict_get_None_keys in E. split; [by intros [? ?] | done].
Qed.

Lemma with_item_get {R} k (found : V → R) (missing : R) d :
  with_item k found missing d =
  match dict_get d k with Some v => found v | None => missing end.
Proof.
  induction d as [|[k' v'] d IH]; simpl; [done|].
  by destruct (String.eqb k' k).
Qed.

Lemma dict_keys_set_in d k v : k ∈ dict_keys d → dict_keys (dict_set d k v) = dict_keys d.
Proof.
  unfold dict_keys. induction d as [|[k' v'] d IH]; simpl.
  - intros H. by apply elem_of_nil in H.
  - destruct (String.eqb k' k) eqn:E; simpl.
    + apply String.eqb_eq in E. by subst.
    + apply String.eqb_neq in E. intros H.
      apply elem_of_cons in H as [H|H]; [done|].
      f_equal. by apply IH.
Qed.

Lemma dict_set_notin d k v : k ∉ dict_keys d → dict_set d k v = d ++ [(k, v)].
Proof.
  unfold dict_keys. induction d as [|[k' v'] d IH]; simpl; [done|].
  intros H. apply not_elem_of_cons in H as [H1 H2].
  destruct (String.eqb k' k) eqn:E.
  - apply String.eqb_eq in E. done.
  - by rewrite IH.
Qed.
End DictFacts.

(** ** Unfolding the monads *)

Ltac munfold :=
  unfold mbind, M_bind, mret, M_ret, fmap, M_fmap, raise, lift, get_slot,
    result_bind, result_ret, result_fmap in *.

Ltac msimpl := munfold; simpl in *.

(** ** Read-only instances *)

(** C3.  Assigning a declared field of an instance fails with the read-only
    exception and leaves the instance as it was.  Assigning any other name
    is passed on to [object.__setattr__]: when the type of the instance has
    no data descriptor under the name, the assignment succeeds, the instance
    then holds the new attribute and every other attribute keeps its value;
    when it has one, its [__set__] decides, and for a property without a
    setter the assignment fails and leaves the instance as it was. *)
Theorem setattr_declared_readonly (type_lookup : string → class_entry) (cls : klass)
  (d : dict) (key : string) (v : value) :
  let self := VInstance cls d in
  (key ∈ dict_keys (declared_attributes cls) →
     Attributee___setattr__ type_lookup key v self = (Raise (Readonly key), self)) ∧
  (key ∉ dict_keys (declared_attributes cls) →
     match type_lookup key with
     | NoDataDescriptor =>
         ∃ self', Attributee___setattr__ type_lookup key v self = (Ok (), self') ∧
                  instance_getattr self' key = Some v ∧
                  ∀ k, k ≠ key → instance_getattr self' k = instance_getattr self k
     | DataDescriptor __set__ =>
         Attributee___setattr__ type_lookup key v self = __set__ self v
     end) ∧
  (key ∉ dict_keys (declared_attributes cls) →
     type_lookup key = DataDescriptor property___set__ →
     Attributee___setattr__ type_lookup key v self = (Raise CantSetAttribute, self)).
Proof.
  intros self.
  assert (key ∉ dict_keys (declared_attributes cls) →
          Attributee___setattr__ type_lookup key v self
          = object___setattr__ type_lookup key v self) as Hobject.
  { intros Hkey. apply dict_get_None_keys in Hkey. unfold Attributee___setattr__, self.
    by rewrite Hkey. }
  split; [|split].
  - intros Hkey. unfold Attributee___setattr__, self.
    apply dict_get_is_Some_keys in Hkey as [f Hf]. by rewrite Hf.
  - intros Hkey. rewrite (Hobject Hkey). unfold object___setattr__, self.
    destruct (type_lookup key) as [set|]; [done|].
    eexists. split; [reflexivity|]. simpl. split.
    + apply dict_get_set_eq.
    + intros k Hk. apply dict_get_set_ne. congruence.
  - intros Hkey Hprop. rewrite (Hobject Hkey). unfold object___setattr__.
    by rewrite Hprop.
Qed.

Lemma setattr_declared_readonly_witness :
  let self := VInstance Stack [("_workspace", VNone); ("title", VStr "stack")] in
  Attributee___setattr__ (class_entries Stack_properties) "title" (VStr "other") self
  = (Raise (Readonly "title"), self) ∧
  (∃ self', Attributee___setattr__ (class_entries Stack_properties) "_cache" (VInt 1) self
            = (Ok (), self') ∧
            instance_getattr self' "_cache" = Some (VInt 1) ∧
            ∀ k, k ≠ "_cache" → instance_getattr self' k = instance_getattr self k) ∧
  Attributee___setattr__ (class_entries Stack_properties) "workspace" VNone self
  = (Raise CantSetAttribute, self).
Proof.
  intros self.
  assert (∀ key, bool_decide (key ∈ dict_keys (declared_attributes Stack)) = false →
                 key ∉ dict_keys (declared_attributes Stack)) as Hnot.
  { intros key Hkey Hin. apply bool_decide_eq_false in Hkey. by apply Hkey. }
  split; [|split].
  - apply (proj1 (setattr_declared_readonly (class_entries Stack_properties) Stack
                    [("_workspace", VNone); ("title", VStr "stack")] "title" (VStr "other"))).
    apply (bool_decide_unpack (_ ∈ _)). vm_compute. exact I.
  - apply (proj1 (proj2 (setattr_declared_readonly (class_entries Stack_properties) Stack
                           [("_workspace", VNone); ("title", VStr "stack")] "_cache"
                           (VInt 1)))).
    apply Hnot. vm_compute. reflexivity.
  - apply (proj2 (proj2 (setattr_declared_readonly (class_entries Stack_properties) Stack
                           [("_workspace", VNone); ("title", VStr "stack")] "workspace"
                           VNone))).
    + apply Hnot. vm_compute. reflexivity.
    + reflexivity.
Defined.

(** [workspace] is no declared attribute of [Stack], and assigning it fails:
    the class defines it as a property without a setter. *)
Lemma undeclared_assignment_counterexample :
  let self := VInstance Stack [("_workspace", VNone); ("title", VStr "stack")] in
  ("workspace" ∉ dict_keys (declared_attributes Stack)) ∧
  Attributee___setattr__ (class_entries Stack_properties) "workspace" (VStr "w") self
  = (Raise CantSetAttribute, self).
Proof.
  split; [|reflexivity].
  intros Hin. apply (bool_decide_pack (_ ∈ _)) in Hin. vm_compute in Hin. exact Hin.
Qed.

(** [Stack.__init__] assigns [_workspace] before the constructor of the base
    class runs: the name is not declared and the assignment goes through. *)
Example Stack_sets__workspace :
  Attributee___setattr__ (class_entries Stack_properties) "_workspace" VNone
    (VInstance Stack [])
  = (Ok (), VInstance Stack [("_workspace", VNone)]).
Proof. reflexivity. Qed.

(** ** Required-ness of nested descriptors *)

Lemma required_without_default (f : attr) :
  required f = true → is_undefined (stored_default f) = true.
Proof.
  destruct f; simpl; try done.
  intros H. by apply andb_true_iff in H as [H _].
Qed.

Section Descriptors.
Context {W : Type} `{!Externals W}.

(** C8.  A [Nested] descriptor as its constructor leaves it is required only
    if some declared attribute of its base class is required, and such an
    attribute has no default; when every attribute of the base class has a
    default the descriptor is not required. *)
Theorem Nested_required_only_if (acls default : value) (f : attr) (w w' : W) :
  Nested_new acls default w = (Ok f, w') →
  (required f = true →
     ∃ c res aname afield,
       acls = VClass c res ∧ (aname, afield) ∈ declared_attributes c ∧
       required afield = true ∧ is_undefined (stored_default afield) = true) ∧
  ((∀ c res aname afield,
       acls = VClass c res → (aname, afield) ∈ declared_attributes c →
       is_undefined (stored_default afield) = false) →
   required f = false).
Proof.
  unfold Nested_new, Nested___init__. intros Hnew.
  destruct acls as [| | | | | | | | |c res|]; msimpl; try discriminate.
  destruct (Attribute___init__ (Nested_coerce (Some (new c))) default w)
    as [[d|e] w1] eqn:Hd; [|discriminate].
  injection Hnew as <- <-. simpl. split.
  - intros Hreq. apply andb_true_iff in Hreq as [_ Hex].
    apply existsb_exists in Hex as [[aname afield] [Hin Hr]].
    exists c, res, aname, afield.
    split; [done|]. split; [by apply list_elem_of_In|].
    split; [done|]. by apply required_without_default.
  - intros Hall. apply andb_false_iff. right.
    apply not_true_is_false. intros Hex.
    apply existsb_exists in Hex as [[aname afield] [Hin Hr]].
    apply required_without_default in Hr.
    rewrite (Hall c res aname afield) in Hr; [done|done|by apply list_elem_of_In].
Qed.

(** ** Polymorphic fields *)

Lemma filter_without_type (d : dict) :
  dict_get d "type" = None →
  List.filter (fun kv => negb (String.eqb kv.1 "type")) d = d.
Proof.
  induction d as [|[k v] d IH]; simpl; [done|].
  destruct (String.eqb k "type"); simpl; [done|].
  intros H. by rewrite IH.
Qed.




(** C9.  On a mapping without a ["type"] entry, [Object.coerce] raises
    nothing of its own: it is the call of the resolver on [None], the
    context and all the entries of the mapping. *)
Theorem Object_coerce_without_type (resolver : string) (dflt : value) (d : dict)
  (ctx : option context) (w : W) :
  dict_get d "type" = None →
  coerce (Object resolver dflt) (VDict d) ctx w = resolvers resolver VNone ctx d w.
Proof.
  intros Ht. simpl. unfold Object_coerce. rewrite Ht.
  rewrite filter_without_type by done. by msimpl.
Qed.
End Descriptors.

Lemma Nested_required_only_if_witness :
  (required (Nested Point true VUndefined) = true →
     ∃ c res aname afield,
       VClass Point None = VClass c res ∧ (aname, afield) ∈ declared_attributes c ∧
       required afield = true ∧ is_undefined (stored_default afield) = true) ∧
  ((∀ c res aname afield,
       VClass Point None = VClass c res → (aname, afield) ∈ declared_attributes c →
       is_undefined (stored_default afield) = false) →
   required (Nested Point true VUndefined) = false).
Proof.
  apply (@Nested_required_only_if unit plain_externals
           (VClass Point None) VUndefined (Nested Point true VUndefined) () ()).
  reflexivity.
Defined.


(** The scenario of the specification, with an integer radius: the log
    holds the one resolver call, the instance holds the coerced radius and
    its dump carries the discriminator. *)
Example Circle_resolved_once :
  let d := [("type", VStr "Circle"); ("radius", VStr "5")] in
  @coerce _ (logging_externals 1) (Object "default_object_resolver" VUndefined)
    (VDict d) (Some [("parent", VNone)]) []
  = (Ok (VInstance Circle [("radius", VInt 5)]),
     [("default_object_resolver", VStr "Circle", Some [("parent", VNone)],
       [("radius", VStr "5")])]) ∧
  @attr_dump _ (logging_externals 1) (Object "default_object_resolver" VUndefined)
    (VInstance Circle [("radius", VInt 5)])
  = Ok (VDict [("radius", VInt 5); ("type", VStr "Circle")]).
Proof. split; vm_compute; reflexivity. Qed.

Lemma Object_coerce_without_type_witness :
  @coerce _ (logging_externals 1) (Object "default_object_resolver" VUndefined)
    (VDict [("radius", VStr "5")]) None []
  = @resolvers _ (logging_externals 1) "default_object_resolver" VNone None
      [("radius", VStr "5")] [].
Proof.
  apply (@Object_coerce_without_type _ (logging_externals 1) "default_object_resolver"
           VUndefined [("radius", VStr "5")] None []).
  reflexivity.
Defined.

(** ** Nested fields holding [None] *)

Section NestedNone.
Context {W : Type} `{!Externals W}.

Lemma singleton_consumed (aname : string) :
  ({[aname]} ∪ ∅) ∖ {[aname]} = (∅ : gset string).
Proof. set_solver. Qed.

(** C10.  [Nested.coerce] of [None] is [None] and touches no collaborator,
    whatever the base class; [Nested.dump] of [None] is [None]; a class with
    a nested field built from [None] holds [None] in that field and dumps
    it as [None]. *)
Theorem Nested_None_end_to_end (acls : klass) (r : bool) (dflt : value)
  (ctx : option context) (w : W) (n aname : string) :
  coerce (Nested acls r dflt) VNone ctx w = (Ok VNone, w) ∧
  attr_dump (Nested acls r dflt) VNone = Ok VNone ∧
  let cls := Klass n [(aname, Nested acls r dflt)] in
  new cls [(aname, VNone)] w = (Ok (VInstance cls [(aname, VNone)]), w) ∧
  Attributee_dump (VInstance cls [(aname, VNone)]) = Ok [(aname, VNone)].
Proof.
  split; [reflexivity|]. split; [reflexivity|]. intros cls. split.
  - unfold new, cls. simpl Attributee___init__. unfold init_attribute, init_start.
    simpl is_Include. cbv iota. simpl dict_get. rewrite String.eqb_refl.
    simpl coerce. unfold Nested_coerce. msimpl.
    unfold init_checks. simpl.
    rewrite singleton_consumed.
    destruct (decide ((∅ : gset string) ≠ ∅)) as [Hne|_]; [done|].
    reflexivity.
  - unfold cls, Attributee_dump, dump_attributes. simpl.
    rewrite String.eqb_refl. reflexivity.
Qed.
End NestedNone.

(** ** Defaults given at definition time *)

Section Defaults.
Context {W : Type} `{!Externals W}.

(** C5.  Defining a [List], [Map] or [Object] descriptor with a default
    raises [AttributeError]: [Attribute.__init__] coerces the default while
    the attributes that [coerce] reads are still unassigned.  A string or a
    non-empty list given to [List], and any mapping given to [Map] or
    [Object], fail this way. *)
Theorem container_default_raises (contains : attr) (separator resolver : string) (w : W) :
  (∀ s, List_new contains separator (VStr s) w = (Raise (NoAttribute "_separator"), w)) ∧
  (∀ x l, List_new contains separator (VList (x :: l)) w
          = (Raise (NoAttribute "_contains"), w)) ∧
  (∀ d, Map_new contains (VDict d) w = (Raise (NoAttribute "_container"), w)) ∧
  (∀ d, Object_new resolver (VDict d) w = (Raise (NoAttribute "_resolver"), w)).
Proof.
  repeat split; intros; reflexivity.
Qed.

(** The sibling classes assign their attributes before the default is
    coerced: the default of [Integer] is stored coerced. *)
Lemma Integer_default_coerced (val_min val_max : option Z) (v : value) (n : value) (w : W) :
  to_number v val_max val_min = Ok n →
  Integer_new val_min val_max v w = (Ok (Integer val_min val_max n), w).
Proof.
  intros Hn. unfold Integer_new, Attribute___init__, Number_coerce.
  destruct v; try (unfold to_number in Hn; simpl in Hn; discriminate Hn);
    msimpl; rewrite Hn; reflexivity.
Qed.
End Defaults.

(** ** List coercion *)

Section Lists.
Context {W : Type} `{!Externals W}.

Lemma mapM_ext {X Y : Type} (f g : X → M W Y) (l : list X) (w : W) :
  (∀ x w', x ∈ l → f x w' = g x w') → mapM f l w = mapM g l w.
Proof.
  revert w. induction l as [|x l IH]; intros w Hfg; simpl; [done|].
  msimpl. rewrite Hfg by apply list_elem_of_here.
  destruct (g x w) as [[y|e] w1]; [|done].
  rewrite IH; [done|]. intros x' w' Hx'. apply Hfg. by apply list_elem_of_further.
Qed.

Lemma List_coerce_items_positions (elem : value → option context → M W value)
  (ctx : context) (items : list value) (w : W) :
  dict_get ctx "key" = None →
  List_coerce_items (Some elem) ctx items w
  = (VList <$> mapM (fun '(i, x) => elem x (Some (("key", VInt (Z.of_nat i)) :: ctx)))
                 (enumerate items)) w.
Proof.
  intros Hkey. unfold List_coerce_items.
  unfold fmap, M_fmap. erewrite mapM_ext; [reflexivity|].
  intros [i x] w' _. unfold with_key. rewrite Hkey. by msimpl.
Qed.

(** [enumerate] pairs the items with the positions [0], [1], ... *)
Lemma enumerate_from {A : Type} (n : nat) (items : list A) :
  imap (fun i x => ((n + i)%nat, x)) items = zip (seq n (length items)) items.
Proof.
  revert n. induction items as [|x items IH]; intros n; [done|].
  simpl. rewrite Nat.add_0_r. f_equal. rewrite <- IH.
  apply imap_ext. intros i y _. simpl. f_equal. lia.
Qed.

Lemma enumerate_seq {A : Type} (items : list A) :
  enumerate items = zip (seq 0 (length items)) items.
Proof. apply (enumerate_from 0). Qed.

(** C7.  In a context without a ["key"] entry (the constructor passes
    [{"parent": self}]; [None] counts as empty), [List.coerce] coerces each
    item with the element descriptor in the context extended by the position
    of the item under ["key"], the first position being [0], and keeps their
    order.  The items are those of a list, the pieces of a string split at
    the separator, the values of a dict, the keys of a [ReadonlyMapping], or
    what an instance yields whose class defines [__iter__]; when that
    [__iter__] raises, so does the coercion.  Any other value, an instance
    without [__iter__] included, raises the conversion exception.  With
    [Integer] elements and the separator [","], the string ["1,2,3"] gives
    [[1, 2, 3]]. *)
Theorem List_coerce_shapes (contains : attr) (separator : string) (dflt : value)
  (ctx : option context) (w : W) :
  dict_get (context_or_empty ctx) "key" = None →
  let positioned items :=
    (VList <$> mapM (fun '(i, x) =>
                       coerce contains x
                         (Some (("key", VInt (Z.of_nat i)) :: context_or_empty ctx)))
                 (zip (seq 0 (length items)) items)) w in
  (∀ l, coerce (List contains separator dflt) (VList l) ctx w = positioned l) ∧
  (∀ s, separator ≠ "" →
        coerce (List contains separator dflt) (VStr s) ctx w
        = positioned (map VStr (split_go separator 0 "" s))) ∧
  (∀ d, coerce (List contains separator dflt) (VDict d) ctx w
        = positioned (map snd d)) ∧
  (∀ d, coerce (List contains separator dflt) (VReadonlyMapping d) ctx w
        = positioned (map (fun kv => VStr kv.1) d)) ∧
  (∀ c d, coerce (List contains separator dflt) (VInstance c d) ctx w
          = match instance_iter c d with
            | Some (Ok items) => positioned items
            | Some (Raise e) => (Raise e, w)
            | None => (Raise (UnableToConvert "list"), w)
            end) ∧
  (∀ v, match v with
        | VNone | VUndefined | VBool _ | VInt _ | VFunction _ _ | VClass _ _ => True
        | _ => False
        end →
        coerce (List contains separator dflt) v ctx w
        = (Raise (UnableToConvert "list"), w)) ∧
  (∀ d0, coerce (List (Integer None None d0) "," dflt) (VStr "1,2,3") ctx w
         = (Ok (VList [VInt 1; VInt 2; VInt 3]), w)).
Proof.
  intros Hkey positioned.
  assert (∀ elem items,
            List_coerce_items (Some elem) (context_or_empty ctx) items w
            = (VList <$> mapM (fun '(i, x) =>
                                 elem x (Some (("key", VInt (Z.of_nat i))
                                                 :: context_or_empty ctx)))
                           (zip (seq 0 (length items)) items)) w) as Hitems.
  { intros elem items. rewrite <- enumerate_seq. by apply List_coerce_items_positions. }
  split; [|split; [|split; [|split; [|split; [|split]]]]].
  - intros l. simpl. unfold List_coerce. apply Hitems.
  - intros s Hsep. simpl. unfold List_coerce, str_split.
    destruct separator as [|a sep]; [done|]. msimpl. apply Hitems.
  - intros d. simpl. unfold List_coerce. apply Hitems.
  - intros d. simpl. unfold List_coerce. rewrite Hitems. unfold positioned.
    unfold dict_keys. by rewrite <- list_fmap_compose.
  - intros c d. simpl. unfold List_coerce.
    destruct (instance_iter c d) as [[items|e]|]; [|done|done].
    msimpl. apply Hitems.
  - intros v Hv. destruct v; try done.
  - intros d0. simpl. unfold List_coerce. msimpl. rewrite Hitems. reflexivity.
Qed.
End Lists.

Lemma List_coerce_shapes_witness :
  let ext := plain_externals in
  let ctx := Some [("parent", VInstance Tags [])] in
  let positioned items :=
    (VList <$> mapM (fun '(i, x) =>
                       coerce (Attribute VUndefined) x
                         (Some (("key", VInt (Z.of_nat i)) :: context_or_empty ctx)))
                 (zip (seq 0 (length items)) items)) () in
  (∀ l, coerce (List (Attribute VUndefined) "," VUndefined) (VList l) ctx () = positioned l) ∧
  (∀ s, "," ≠ "" →
        coerce (List (Attribute VUndefined) "," VUndefined) (VStr s) ctx ()
        = positioned (map VStr (split_go "," 0 "" s))) ∧
  (∀ d, coerce (List (Attribute VUndefined) "," VUndefined) (VDict d) ctx ()
        = positioned (map snd d)) ∧
  (∀ d, coerce (List (Attribute VUndefined) "," VUndefined) (VReadonlyMapping d) ctx ()
        = positioned (map (fun kv => VStr kv.1) d)) ∧
  (∀ c d, coerce (List (Attribute VUndefined) "," VUndefined) (VInstance c d) ctx ()
          = match instance_iter c d with
            | Some (Ok items) => positioned items
            | Some (Raise e) => (Raise e, ())
            | None => (Raise (UnableToConvert "list"), ())
            end) ∧
  (∀ v, match v with
        | VNone | VUndefined | VBool _ | VInt _ | VFunction _ _ | VClass _ _ => True
        | _ => False
        end →
        coerce (List (Attribute VUndefined) "," VUndefined) v ctx ()
        = (Raise (UnableToConvert "list"), ())) ∧
  (∀ d0, coerce (List (Integer None None d0) "," VUndefined) (VStr "1,2,3") ctx ()
         = (Ok (VList [VInt 1; VInt 2; VInt 3]), ())).
Proof.
  intros ext ctx.
  apply (@List_coerce_shapes unit plain_externals (Attribute VUndefined) "," VUndefined
           ctx ()).
  reflexivity.
Defined.

(** In a context that holds ["key"], as [Map.coerce] and [List.coerce] pass
    to their items, the string ["1,2,3"] is not coerced but raises
    [TypeError]; and an instance of [Stack], which is neither text, sequence
    nor mapping, is not refused but iterated by its [__iter__]. *)
Lemma List_coerce_counterexample :
  let numbers := List (Integer None None VUndefined) "," VUndefined in
  let circle := VInstance Circle [("radius", VInt 5)] in
  let stack :=
    VInstance Stack
      [("_workspace", VNone); ("title", VStr "stack");
       ("experiments", VReadonlyMapping [("baseline", circle)])] in
  @coerce unit plain_externals numbers (VStr "1,2,3") (Some [("key", VStr "numbers")]) ()
  = (Raise TypeError, ()) ∧
  @coerce unit plain_externals (List (Attribute VUndefined) "," VUndefined) stack None ()
  = (Ok (VList [circle]), ()).
Proof. split; vm_compute; reflexivity. Qed.

(** The positions that the items of a list of two see, with an element
    descriptor whose resolver records its context. *)
Example List_positions_logged :
  let ctx := Some [("parent", VNone)] in
  let circle r := VDict [("type", VStr "Circle"); ("radius", VStr r)] in
  snd (@coerce _ (logging_externals 1) (List (Object "r" VUndefined) "," VUndefined)
         (VList [circle "1"; circle "2"]) ctx [])
  = [("r", VStr "Circle", Some [("key", VInt 0); ("parent", VNone)], [("radius", VStr "1")]);
     ("r", VStr "Circle", Some [("key", VInt 1); ("parent", VNone)], [("radius", VStr "2")])].
Proof. reflexivity. Qed.

(** Inside a [Map] or another [List] the context already holds ["key"], and
    building the context of an item is a [TypeError]. *)
Example List_inside_Map_raises :
  @coerce _ plain_externals (Map (List (Integer None None VUndefined) "," VUndefined) VUndefined)
    (VDict [("a", VStr "1,2,3")]) (Some []) ()
  = (Raise TypeError, ()).
Proof. vm_compute. reflexivity. Qed.

(** ** Merging declared attributes along the ancestry *)

Section Filter.
Context {A : Type} (P Q : A → Prop) `{!∀ x, Decision (P x), !∀ x, Decision (Q x)}.

Lemma filter_ext_in (l : list A) :
  (∀ x, x ∈ l → P x ↔ Q x) → filter P l = filter Q l.
Proof.
  induction l as [|a l IH]; intros Hall; [done|].
  assert (filter P l = filter Q l) as IH'.
  { apply IH. intros x Hx. apply Hall. by apply list_elem_of_further. }
  destruct (decide (P a)) as [Ha|Ha].
  - rewrite !filter_cons_True; [by rewrite IH'| |done].
    apply Hall; [apply list_elem_of_here|done].
  - rewrite !filter_cons_False; [done| |done].
    intros Hq. apply Ha. apply Hall; [apply list_elem_of_here|done].
Qed.

Lemma filter_all (l : list A) : (∀ x, x ∈ l → P x) → filter P l = l.
Proof.
  induction l as [|a l IH]; intros Hall; [done|].
  rewrite filter_cons_True by (apply Hall; apply list_elem_of_here).
  f_equal. apply IH. intros x Hx. apply Hall. by apply list_elem_of_further.
Qed.

Lemma filter_none (l : list A) : (∀ x, x ∈ l → ¬ P x) → filter P l = [].
Proof.
  induction l as [|a l IH]; intros Hall; [done|].
  rewrite filter_cons_False by (apply Hall; apply list_elem_of_here).
  apply IH. intros x Hx. apply Hall. by apply list_elem_of_further.
Qed.
End Filter.

Section DictUpdate.
Context {V : Type}.
Implicit Types (d e x : list (string * V)) (k : string) (v : V).

Lemma dict_keys_set d k v :
  dict_keys (dict_set d k v)
  = if decide (k ∈ dict_keys d) then dict_keys d else dict_keys d ++ [k].
Proof.
  destruct (decide (k ∈ dict_keys d)) as [Hin|Hnot].
  - by apply dict_keys_set_in.
  - rewrite dict_set_notin by done. unfold dict_keys. by rewrite fmap_app.
Qed.

Lemma dict_update_cons d k v x :
  dict_update d ((k, v) :: x) = dict_update (dict_set d k v) x.
Proof. reflexivity. Qed.

Lemma dict_update_app d x1 x2 :
  dict_update d (x1 ++ x2) = dict_update (dict_update d x1) x2.
Proof. unfold dict_update. apply fold_left_app. Qed.

Lemma dict_keys_update_prefix d x : dict_keys d `prefix_of` dict_keys (dict_update d x).
Proof.
  revert d. induction x as [|[k v] x IH]; intros d; [done|].
  rewrite dict_update_cons. etrans; [|apply IH].
  rewrite dict_keys_set. case_decide; [done|]. by apply prefix_app_r.
Qed.

Lemma dict_set_NoDup d k v : NoDup (dict_keys d) → NoDup (dict_keys (dict_set d k v)).
Proof.
  intros Hd. rewrite dict_keys_set. case_decide; [done|].
  apply NoDup_app. split; [done|]. split; [|apply NoDup_singleton].
  intros k' Hk' Hin. apply list_elem_of_singleton in Hin. by subst.
Qed.

Lemma dict_update_NoDup d x : NoDup (dict_keys d) → NoDup (dict_keys (dict_update d x)).
Proof.
  revert d. induction x as [|[k v] x IH]; intros d Hd; [done|].
  rewrite dict_update_cons. apply IH. by apply dict_set_NoDup.
Qed.

Lemma dict_of_NoDup x : NoDup (dict_keys (dict_of x)).
Proof. apply dict_update_NoDup. apply NoDup_nil_2. Qed.

Lemma dict_get_update_notin d x k :
  k ∉ dict_keys x → dict_get (dict_update d x) k = dict_get d k.
Proof.
  revert d. induction x as [|[k0 v0] x IH]; intros d Hk; [done|].
  rewrite dict_update_cons. unfold dict_keys in Hk. rewrite fmap_cons in Hk.
  apply not_elem_of_cons in Hk as [Hne Hk].
  rewrite IH by done. apply dict_get_set_ne. simpl in Hne. congruence.
Qed.

Lemma dict_get_update_in d x k v :
  NoDup (dict_keys x) → dict_get x k = Some v → dict_get (dict_update d x) k = Some v.
Proof.
  revert d. induction x as [|[k0 v0] x IH]; intros d Hnd Hget; [done|].
  rewrite dict_update_cons. unfold dict_keys in Hnd. rewrite fmap_cons in Hnd.
  apply NoDup_cons in Hnd as [Hk0 Hnd]. simpl in Hget, Hk0.
  destruct (String.eqb k0 k) eqn:E.
  - apply String.eqb_eq in E. subst k0. injection Hget as <-.
    rewrite dict_get_update_notin by done. apply dict_get_set_eq.
  - by apply IH.
Qed.

Lemma dict_keys_update d x :
  NoDup (dict_keys x) →
  dict_keys (dict_update d x)
  = dict_keys d ++ filter (fun k => k ∉ dict_keys d) (dict_keys x).
Proof.
  revert d. induction x as [|[k0 v0] x IH]; intros d Hnd.
  - simpl. by rewrite app_nil_r.
  - rewrite dict_update_cons. unfold dict_keys in Hnd. rewrite fmap_cons in Hnd.
    apply NoDup_cons in Hnd as [Hk0 Hnd]. simpl in Hk0.
    rewrite IH by done. rewrite dict_keys_set.
    change (dict_keys ((k0, v0) :: x)) with (k0 :: dict_keys x).
    destruct (decide (k0 ∈ dict_keys d)) as [Hin|Hnot].
    + rewrite filter_cons_False by (intros H; by apply H). done.
    + rewrite filter_cons_True by done. rewrite <- app_assoc. simpl. do 2 f_equal.
      apply filter_ext_in. intros k Hk. rewrite elem_of_app, list_elem_of_singleton.
      split; [tauto|]. intros Hn [H|H]; [done|]. subst. done.
Qed.

Lemma dict_ext d e :
  NoDup (dict_keys d) → dict_keys d = dict_keys e →
  (∀ k, dict_get d k = dict_get e k) → d = e.
Proof.
  revert e. induction d as [|[k v] d IH]; intros [|[k' v'] e] Hnd Hkeys Hget;
    try done.
  unfold dict_keys in *. rewrite !fmap_cons in Hkeys. simpl in Hkeys.
  injection Hkeys as -> Hkeys. rewrite fmap_cons in Hnd.
  apply NoDup_cons in Hnd as [Hk Hnd]. simpl in Hk.
  pose proof (Hget k') as Hk'. simpl in Hk'. rewrite String.eqb_refl in Hk'.
  injection Hk' as ->. f_equal. apply IH; [done|done|].
  intros k. specialize (Hget k). simpl in Hget.
  destruct (String.eqb k' k) eqn:E; [|done].
  apply String.eqb_eq in E. subst k.
  assert (dict_get d k' = None) as -> by by apply dict_get_None_keys.
  symmetry. apply dict_get_None_keys. unfold dict_keys. by rewrite <- Hkeys.
Qed.

(** Updating a dict with a dict that extends it changes nothing more. *)
Lemma dict_update_absorb d e :
  NoDup (dict_keys e) → dict_keys d `prefix_of` dict_keys e → dict_update d e = e.
Proof.
  intros Hnd [rest Hrest]. apply dict_ext.
  - apply dict_update_NoDup. rewrite Hrest in Hnd. by apply NoDup_app in Hnd as [? _].
  - rewrite dict_keys_update by done. rewrite Hrest at 2. f_equal.
    rewrite Hrest, filter_app. rewrite Hrest in Hnd.
    apply NoDup_app in Hnd as (_ & Hdisj & _).
    rewrite (filter_none _ (dict_keys d)) by (intros k Hk H; by apply H).
    simpl. apply filter_all. intros k Hk Hin. by apply (Hdisj k).
  - intros k. destruct (dict_get e k) as [v|] eqn:E.
    + by apply dict_get_update_in.
    + apply dict_get_None_keys in E. rewrite dict_get_update_notin by done.
      apply dict_get_None_keys. intros Hin. apply E. rewrite Hrest.
      apply elem_of_app. by left.
Qed.
End DictUpdate.

Lemma get_fields_descriptors (attrs : list (string * attr)) :
  _get_fields (map (fun '(n, f) => (n, Descriptor f)) attrs) = attrs.
Proof. induction attrs as [|[n f] l IH]; simpl; [done|by rewrite IH]. Qed.

Lemma get_fields_keys (attrs : list (string * member)) (k : string) :
  k ∈ dict_keys (_get_fields attrs) → k ∈ dict_keys attrs.
Proof.
  induction attrs as [|[n [f|]] l IH]; simpl; [done| |].
  - intros [->|H]%elem_of_cons; [apply list_elem_of_here|].
    apply list_elem_of_further. by apply IH.
  - intros H. apply list_elem_of_further. by apply IH.
Qed.

Lemma get_fields_NoDup (attrs : list (string * member)) :
  NoDup (dict_keys attrs) → NoDup (dict_keys (_get_fields attrs)).
Proof.
  induction attrs as [|[n [f|]] l IH]; simpl; [done| |].
  - intros [Hn Hl]%NoDup_cons. apply NoDup_cons. split; [|by apply IH].
    intros H. apply Hn. by apply get_fields_keys.
  - intros [Hn Hl]%NoDup_cons. by apply IH.
Qed.

Lemma get_fields_by_mro_cons (c : pyclass) (mro : list pyclass) :
  _get_fields_by_mro (c :: mro) = _get_fields_by_mro mro ++ base_fields c.
Proof.
  unfold _get_fields_by_mro. simpl. rewrite map_app, concat_app. simpl.
  by rewrite app_nil_r.
Qed.

(** The declared attributes of a new class, when those of its parent are
    the merge of what the parent's method resolution order contributes. *)
Lemma new_class_declared (name : string) (mro : list pyclass)
  (attrs : list (string * member)) :
  dict_of (_get_fields_by_mro mro) = py_declared (hd object_class mro) →
  py_declared (AttributeeMeta___new__ name mro attrs)
  = dict_update (py_declared (hd object_class mro)) (_get_fields attrs).
Proof.
  intros Hinv. simpl. unfold dict_of. rewrite dict_update_app.
  fold (dict_of (_get_fields_by_mro mro)). by rewrite Hinv.
Qed.

Lemma chain_invariant (bodies : list (string * list (string * member)))
  (mro : list pyclass) :
  dict_of (_get_fields_by_mro mro) = py_declared (hd object_class mro) →
  (∀ anc, anc ∈ mro →
     dict_keys (py_declared anc) `prefix_of` dict_keys (py_declared (hd object_class mro))) →
  let mro' := subclass_chain mro bodies in
  dict_of (_get_fields_by_mro mro') = py_declared (hd object_class mro') ∧
  (∀ anc, anc ∈ mro' →
     dict_keys (py_declared anc) `prefix_of` dict_keys (py_declared (hd object_class mro'))).
Proof.
  revert mro. induction bodies as [|[name attrs] bodies IH]; intros mro Hinv Hpre.
  - by split.
  - simpl. apply IH.
    + rewrite get_fields_by_mro_cons. unfold dict_of. rewrite dict_update_app.
      fold (dict_of (_get_fields_by_mro mro)). rewrite Hinv.
      change (hd object_class (AttributeeMeta___new__ name mro attrs :: mro))
        with (AttributeeMeta___new__ name mro attrs).
      change (base_fields (AttributeeMeta___new__ name mro attrs))
        with (_get_fields (map (fun '(n, f) => (n, Descriptor f))
                (py_declared (AttributeeMeta___new__ name mro attrs)))).
      rewrite get_fields_descriptors, new_class_declared by done.
      apply dict_update_absorb; [|apply dict_keys_update_prefix].
      apply dict_update_NoDup. rewrite <- Hinv. apply dict_of_NoDup.
    + intros anc Hanc.
      change (hd object_class (AttributeeMeta___new__ name mro attrs :: mro))
        with (AttributeeMeta___new__ name mro attrs).
      apply elem_of_cons in Hanc as [->|Hanc]; [done|].
      etrans; [by apply Hpre|].
      rewrite new_class_declared by done. apply dict_keys_update_prefix.
Qed.

Lemma object_invariant :
  dict_of (_get_fields_by_mro [object_class]) = py_declared (hd object_class [object_class]) ∧
  (∀ anc, anc ∈ [object_class] →
     dict_keys (py_declared anc)
       `prefix_of` dict_keys (py_declared (hd object_class [object_class]))).
Proof.
  split; [reflexivity|]. intros anc Hanc. apply list_elem_of_singleton in Hanc. by subst.
Qed.

Lemma subclass_chain_snoc (mro : list pyclass)
  (bodies : list (string * list (string * member))) (name : string)
  (attrs : list (string * member)) :
  subclass_chain mro (bodies ++ [(name, attrs)])
  = AttributeeMeta___new__ name (subclass_chain mro bodies) attrs
    :: subclass_chain mro bodies.
Proof.
  revert mro. induction bodies as [|[n a] bodies IH]; intros mro; [done|].
  simpl. apply IH.
Qed.

Lemma dict_keys_update_elem {V : Type} (d x : list (string * V)) (k : string) :
  k ∈ dict_keys (dict_update d x) ↔ k ∈ dict_keys d ∨ k ∈ dict_keys x.
Proof.
  revert d. induction x as [|[k0 v0] x IH]; intros d.
  - simpl. split; [by left|]. intros [H|H]; [done|]. by apply elem_of_nil in H.
  - rewrite dict_update_cons, IH, dict_keys_set.
    change (dict_keys ((k0, v0) :: x)) with (k0 :: dict_keys x).
    rewrite elem_of_cons. case_decide.
    + split; [tauto|]. intros [?|[->|?]]; tauto.
    + rewrite elem_of_app, list_elem_of_singleton. tauto.
Qed.

Lemma get_fields_by_mro_elem (mro : list pyclass) (base : pyclass) (k : string) :
  base ∈ mro → k ∈ dict_keys (base_fields base) → k ∈ dict_keys (_get_fields_by_mro mro).
Proof.
  intros Hbase Hk. induction mro as [|c mro IH]; [by apply elem_of_nil in Hbase|].
  rewrite get_fields_by_mro_cons. unfold dict_keys. rewrite fmap_app, elem_of_app.
  apply elem_of_cons in Hbase as [->|Hbase]; [by right|]. left. by apply IH.
Qed.

(** The merged attributes of a class are the merge of what the classes
    of its method resolution order contribute, from the farthest to the
    nearest, followed by what the class declares: the inherited names come
    first, in their order, then the names the class newly declares; every
    name of every base is among them; a name the class declares maps to the
    class's own descriptor, at the inherited position if it was inherited,
    and every other name maps to the inherited descriptor.  Along a chain of
    class statements of any length, each class deriving from the one before,
    what a class inherits is the merged attributes of its parent, and the
    merged names of every ancestor are a prefix of the merged names of the
    class. *)
Lemma merged_attributes (mro_tail : list pyclass) (name : string)
  (attrs : list (string * member)) :
  NoDup (dict_keys attrs) →
  let cls := AttributeeMeta___new__ name mro_tail attrs in
  let inherited := dict_of (_get_fields_by_mro mro_tail) in
  let own := _get_fields attrs in
  dict_keys (py_declared cls)
  = dict_keys inherited ++ filter (fun k => k ∉ dict_keys inherited) (dict_keys own) ∧
  (∀ base k, base ∈ mro_tail → k ∈ dict_keys (base_fields base) →
             k ∈ dict_keys (py_declared cls)) ∧
  (∀ k f, dict_get own k = Some f → dict_get (py_declared cls) k = Some f) ∧
  (∀ k, dict_get own k = None → dict_get (py_declared cls) k = dict_get inherited k) ∧
  (∀ ancestors,
     mro_tail = subclass_chain [object_class] ancestors →
     inherited = py_declared (chain_class ancestors) ∧
     ∀ anc, anc ∈ mro_tail →
            dict_keys (py_declared anc) `prefix_of` dict_keys (py_declared cls)).
Proof.
  intros Hnd cls inherited own.
  assert (py_declared cls = dict_update inherited own) as Hcls.
  { simpl. unfold dict_of. by rewrite dict_update_app. }
  assert (NoDup (dict_keys own)) as Hown by by apply get_fields_NoDup.
  rewrite Hcls. split; [|split; [|split; [|split]]].
  - by apply dict_keys_update.
  - intros base k Hbase Hk. apply dict_keys_update_elem. left.
    apply dict_keys_update_elem. right. by eapply get_fields_by_mro_elem.
  - intros k f Hk. by apply dict_get_update_in.
  - intros k Hk. apply dict_get_update_notin. by apply dict_get_None_keys.
  - intros ancestors ->.
    destruct object_invariant as [Hobj Hpre0].
    destruct (chain_invariant ancestors [object_class] Hobj Hpre0) as [Hinv Hpre].
    split; [done|]. intros anc Hanc. etrans; [by apply Hpre|].
    unfold inherited. rewrite Hinv. apply dict_keys_update_prefix.
Qed.

Lemma merged_attributes_witness :
  let mro_tail :=
    subclass_chain [object_class] [("Attributee", Attributee_body); ("Shape", Shape_body)] in
  let cls := AttributeeMeta___new__ "Square" mro_tail Square_body in
  let inherited := dict_of (_get_fields_by_mro mro_tail) in
  let own := _get_fields Square_body in
  dict_keys (py_declared cls)
  = dict_keys inherited ++ filter (fun k => k ∉ dict_keys inherited) (dict_keys own) ∧
  (∀ base k, base ∈ mro_tail → k ∈ dict_keys (base_fields base) →
             k ∈ dict_keys (py_declared cls)) ∧
  (∀ k f, dict_get own k = Some f → dict_get (py_declared cls) k = Some f) ∧
  (∀ k, dict_get own k = None → dict_get (py_declared cls) k = dict_get inherited k) ∧
  (∀ ancestors,
     mro_tail = subclass_chain [object_class] ancestors →
     inherited = py_declared (chain_class ancestors) ∧
     ∀ anc, anc ∈ mro_tail →
            dict_keys (py_declared anc) `prefix_of` dict_keys (py_declared cls)).
Proof.
  apply (merged_attributes
           (subclass_chain [object_class]
              [("Attributee", Attributee_body); ("Shape", Shape_body)])
           "Square" Square_body).
  apply (bool_decide_unpack (NoDup (dict_keys Square_body))). vm_compute. exact I.
Defined.

(** The chain of the witness, evaluated: [sides] keeps its place and takes
    the descriptor of [Square], [side] comes last. *)
Example Square_declared :
  py_declared (chain_class [("Attributee", Attributee_body); ("Shape", Shape_body);
                            ("Square", Square_body)])
  = [("name", String VUndefined); ("sides", Integer None None (VInt 4));
     ("side", Integer (Some 0) None VUndefined)].
Proof. reflexivity. Qed.

(** With two parents the merge takes, for a name that only one branch
    declares again, the descriptor found in the branch visited last, here
    the one [Left] inherited from [Base]. *)
Example Bottom_declared :
  py_declared Bottom_class
  = [("x", Integer None None VUndefined); ("y", Boolean VUndefined)].
Proof. reflexivity. Qed.

Lemma filter_attributes_keys (acls : klass) (kwargs : dict) (k : string) :
  k ∈ dict_keys (filter_attributes acls kwargs) → k ∈ dict_keys kwargs.
Proof.
  revert acls kwargs k. fix IH 1. intros [n attributes] kwargs k. simpl.
  assert (∀ acc : dict,
            (k ∈ dict_keys acc → k ∈ dict_keys kwargs) →
            k ∈ dict_keys
                  (fold_left
                     (fun filtered '(aname, afield) =>
                        match afield with
                        | Include acls' _ => dict_update filtered (filter_attributes acls' kwargs)
                        | _ =>
                            match dict_get kwargs aname with
                            | Some v => dict_set filtered aname v
                            | None => filtered
                            end
                        end) attributes acc) →
            k ∈ dict_keys kwargs) as Hfold.
  { induction attributes as [|[aname afield] l IHl]; intros acc Hacc; simpl; [done|].
    apply IHl.
    assert (k ∈ dict_keys (match dict_get kwargs aname with
                           | Some v => dict_set acc aname v
                           | None => acc
                           end) → k ∈ dict_keys kwargs) as Hplain.
    { destruct (dict_get kwargs aname) as [v|] eqn:E; [|done].
      rewrite dict_keys_set. case_decide as Hd; [done|].
      intros [Hk|Hk]%elem_of_app; [by apply Hacc|].
      apply list_elem_of_singleton in Hk. subst. by eapply dict_get_Some_keys. }
    destruct afield; try exact Hplain.
    intros [Hk|Hk]%dict_keys_update_elem; [by apply Hacc|]. by eapply IH. }
  apply Hfold. intros H. by apply elem_of_nil in H.
Qed.

(** ** The checks that end the constructor *)

Section Checks.
Context {W : Type} `{!Externals W}.

Lemma Attributee___init___loop (cls : klass) (self kwargs : dict) :
  Attributee___init__ cls self kwargs = (st ← init_loop cls self kwargs; init_checks st).
Proof. by destruct cls. Qed.

Lemma processed_names_cons (kwargs : dict) (a : string * attr) (l : list (string * attr)) :
  processed_names kwargs (a :: l)
  = processed_names kwargs [a] ∪ processed_names kwargs l.
Proof.
  unfold processed_names. simpl. rewrite app_nil_r. apply list_to_set_app_L.
Qed.

Lemma init_attribute_sets (cls : klass) (kwargs : dict) (aname : string) (afield : attr)
  (coerce_afield : value → option context → M W value) (st st' : init_state) (w w' : W) :
  init_attribute cls kwargs aname afield coerce_afield st w = (Ok st', w') →
  unspecified st' = unspecified st ∖ processed_names kwargs [(aname, afield)] ∧
  unconsumed st' = unconsumed st ∖ processed_names kwargs [(aname, afield)].
Proof.
  unfold init_attribute, processed_names, dict_has. simpl.
  destruct (is_Include afield).
  - msimpl. destruct (coerce_afield _ _ w) as [[x|e] w1]; [|discriminate].
    intros [= <- <-]. simpl. rewrite app_nil_r, list_to_set_app_L. set_solver.
  - destruct (dict_get kwargs aname) as [avalue|]; simpl.
    + msimpl. destruct (coerce_afield _ _ w) as [[x|e] w1]; [|discriminate].
      intros [= <- <-]. simpl. set_solver.
    + destruct (required afield); simpl.
      * msimpl. intros [= <- <-]. set_solver.
      * msimpl. destruct (coerce_afield _ _ w) as [[x|e] w1]; [|discriminate].
        intros [= <- <-]. simpl. set_solver.
Qed.

Lemma init_loop_sets (cls : klass) (kwargs : dict) (l : list (string * attr))
  (st st' : init_state) (w w' : W) :
  foldM (fun st '(aname, afield) =>
           init_attribute cls kwargs aname afield (coerce afield) st) l st w
  = (Ok st', w') →
  unspecified st' = unspecified st ∖ processed_names kwargs l ∧
  unconsumed st' = unconsumed st ∖ processed_names kwargs l.
Proof.
  revert st w. induction l as [|[aname afield] l IH]; intros st w.
  - simpl. msimpl. intros [= <- <-]. unfold processed_names. simpl. set_solver.
  - simpl. unfold mbind at 1, M_bind at 1.
    destruct (init_attribute cls kwargs aname afield (coerce afield) st w)
      as [[st1|e] w1] eqn:Hstep; [|discriminate].
    intros Hrest. apply init_attribute_sets in Hstep as [Hs1 Hc1].
    apply IH in Hrest as [Hs2 Hc2].
    rewrite processed_names_cons, Hs2, Hc2, Hs1, Hc1. set_solver.
Qed.
End Checks.

Lemma dict_has_keys {V : Type} (d : list (string * V)) (k : string) :
  dict_has d k = true ↔ k ∈ dict_keys d.
Proof.
  unfold dict_has. rewrite <- dict_get_is_Some_keys.
  destruct (dict_get d k); split; try done; try (by eauto); by intros [? ?].
Qed.

Lemma NoDup_keys_functional {V : Type} (d : list (string * V)) (k : string) (v1 v2 : V) :
  NoDup (dict_keys d) → (k, v1) ∈ d → (k, v2) ∈ d → v1 = v2.
Proof.
  induction d as [|[k0 v0] d IH]; intros Hnd H1 H2; [by apply elem_of_nil in H1|].
  change (dict_keys ((k0, v0) :: d)) with (k0 :: dict_keys d) in Hnd.
  apply NoDup_cons in Hnd as [Hk0 Hnd].
  assert (∀ v, (k0, v) ∈ d → False) as Hfresh.
  { intros v Hv. apply Hk0. unfold dict_keys.
    apply list_elem_of_fmap. by exists (k0, v). }
  apply elem_of_cons in H1 as [H1|H1]; apply elem_of_cons in H2 as [H2|H2];
    simplify_eq; try done; try (exfalso; by eapply Hfresh).
  by apply IH.
Qed.

Lemma Include_filter_keys (afield : attr) (kwargs : dict) (k : string) :
  k ∈ dict_keys (Include_filter afield kwargs) → k ∈ dict_keys kwargs.
Proof.
  destruct afield; simpl; try (intros H; by apply elem_of_nil in H).
  apply filter_attributes_keys.
Qed.

Lemma elem_of_processed_names (kwargs : dict) (l : list (string * attr)) (k : string) :
  k ∈ processed_names kwargs l ↔
  ∃ aname afield,
    (aname, afield) ∈ l ∧
    if is_Include afield
    then k ∈ dict_keys (Include_filter afield kwargs) ∨ k = aname
    else (dict_has kwargs aname || negb (required afield)) = true ∧ k = aname.
Proof.
  unfold processed_names. rewrite elem_of_list_to_set, list_elem_of_In, in_flat_map.
  split.
  - intros [[aname afield] [Hin Hk]]. exists aname, afield.
    split; [by apply list_elem_of_In|].
    apply list_elem_of_In in Hk. destruct (is_Include afield).
    + apply elem_of_app in Hk as [Hk|Hk]; [by left|].
      right. by apply list_elem_of_singleton in Hk.
    + destruct (dict_has kwargs aname || negb (required afield)).
      * split; [done|]. by apply list_elem_of_singleton in Hk.
      * by apply elem_of_nil in Hk.
  - intros (aname & afield & Hin & Hk). exists (aname, afield).
    split; [by apply list_elem_of_In|]. apply list_elem_of_In.
    destruct (is_Include afield).
    + apply elem_of_app. destruct Hk as [Hk| ->]; [by left|].
      right. apply list_elem_of_here.
    + destruct Hk as [-> ->]. apply list_elem_of_here.
Qed.

Lemma elem_of_missing_arguments (cls : klass) (kwargs : dict) (k : string) :
  k ∈ missing_arguments cls kwargs ↔
  ∃ afield, (k, afield) ∈ declared_attributes cls ∧ is_Include afield = false ∧
            dict_has kwargs k = false ∧ required afield = true.
Proof.
  unfold missing_arguments. rewrite elem_of_list_to_set, list_elem_of_In, in_flat_map.
  split.
  - intros [[aname afield] [Hin Hk]]. apply list_elem_of_In in Hk, Hin.
    destruct (is_Include afield) eqn:Hi, (dict_has kwargs aname) eqn:Hh,
      (required afield) eqn:Hr; simpl in Hk; try (by apply elem_of_nil in Hk).
    apply list_elem_of_singleton in Hk. subst. by exists afield.
  - intros (afield & Hin & Hi & Hh & Hr). exists (k, afield).
    split; [by apply list_elem_of_In|]. rewrite Hi, Hh, Hr. simpl. by left.
Qed.

Lemma elem_of_included_keys (cls : klass) (kwargs : dict) (k : string) :
  k ∈ included_keys cls kwargs ↔
  ∃ aname afield, (aname, afield) ∈ declared_attributes cls ∧
                  k ∈ dict_keys (Include_filter afield kwargs).
Proof.
  unfold included_keys. rewrite elem_of_list_to_set, list_elem_of_In, in_flat_map.
  split.
  - intros [[aname afield] [Hin Hk]]. exists aname, afield.
    by rewrite !list_elem_of_In.
  - intros (aname & afield & Hin & Hk). exists (aname, afield).
    by rewrite <- !list_elem_of_In.
Qed.

Lemma elem_of_declared_keys (cls : klass) (k : string) :
  k ∈ dict_keys (declared_attributes cls) ↔ ∃ afield, (k, afield) ∈ declared_attributes cls.
Proof.
  unfold dict_keys. rewrite list_elem_of_fmap. split.
  - intros [[k' f] [-> Hin]]. by exists f.
  - intros [f Hin]. by exists (k, f).
Qed.

Lemma non_Include_filter (afield : attr) (kwargs : dict) :
  is_Include afield = false → Include_filter afield kwargs = [].
Proof. by destruct afield. Qed.

(** What is left of the declared names after the loop is what is missing. *)
Lemma unspecified_after_loop (cls : klass) (kwargs : dict) :
  NoDup (dict_keys (declared_attributes cls)) →
  list_to_set (dict_keys (declared_attributes cls))
    ∖ processed_names kwargs (declared_attributes cls)
  = missing_arguments cls kwargs.
Proof.
  intros Hnd. apply set_eq. intros k.
  rewrite elem_of_difference, elem_of_list_to_set, elem_of_declared_keys,
    elem_of_processed_names, elem_of_missing_arguments.
  split.
  - intros [[afield Hin] Hnot]. exists afield. split; [done|].
    destruct (is_Include afield) eqn:Hi.
    { exfalso. apply Hnot. exists k, afield. rewrite Hi. split; [done|]. by right. }
    split; [done|].
    destruct (dict_has kwargs k) eqn:Hh.
    { exfalso. apply Hnot. exists k, afield. by rewrite Hi, Hh. }
    split; [done|].
    destruct (required afield) eqn:Hr; [done|].
    exfalso. apply Hnot. exists k, afield. by rewrite Hi, Hh, Hr.
  - intros (afield & Hin & Hi & Hh & Hr). split; [by exists afield|].
    intros (aname & afield' & Hin' & Hk).
    assert (k ∉ dict_keys kwargs) as Habsent.
    { rewrite <- dict_has_keys. by rewrite Hh. }
    destruct (is_Include afield') eqn:Hi'.
    + destruct Hk as [Hk| ->].
      * apply Habsent. by eapply Include_filter_keys.
      * rewrite (NoDup_keys_functional _ _ _ _ Hnd Hin Hin') in Hi. congruence.
    + destruct Hk as [Hk ->].
      rewrite (NoDup_keys_functional _ _ _ _ Hnd Hin Hin') in Hr.
      rewrite Hh, Hr in Hk. done.
Qed.

(** What is left of the keyword arguments after the loop is what is
    unsupported. *)
Lemma unconsumed_after_loop (cls : klass) (kwargs : dict) :
  list_to_set (dict_keys kwargs) ∖ processed_names kwargs (declared_attributes cls)
  = unsupported_arguments cls kwargs.
Proof.
  apply set_eq. intros k. unfold unsupported_arguments.
  rewrite !elem_of_difference, !elem_of_list_to_set, elem_of_declared_keys,
    elem_of_processed_names, elem_of_included_keys.
  split.
  - intros [Hk Hnot]. split; [split; [done|]|].
    + intros [afield Hin]. apply Hnot. exists k, afield. split; [done|].
      destruct (is_Include afield); [by right|].
      split; [|done]. apply orb_true_iff. left. by apply dict_has_keys.
    + intros (aname & afield & Hin & Hinc). apply Hnot. exists aname, afield.
      split; [done|]. destruct (is_Include afield) eqn:Hi; [by left|].
      rewrite non_Include_filter in Hinc by done. by apply elem_of_nil in Hinc.
  - intros [[Hk Hdecl] Hinc]. split; [done|].
    intros (aname & afield & Hin & Hp). destruct (is_Include afield).
    + destruct Hp as [Hp| ->].
      * apply Hinc. by exists aname, afield.
      * apply Hdecl. by exists afield.
    + destruct Hp as [_ ->]. apply Hdecl. by exists afield.
Qed.

Lemma missing_not_supplied (cls : klass) (kwargs : dict) :
  missing_arguments cls kwargs ## unsupported_arguments cls kwargs.
Proof.
  apply elem_of_disjoint. intros k Hm Hu.
  apply elem_of_missing_arguments in Hm as (afield & Hin & _).
  unfold unsupported_arguments in Hu.
  apply elem_of_difference in Hu as [Hu _]. apply elem_of_difference in Hu as [_ Hu].
  apply Hu. rewrite elem_of_list_to_set, elem_of_declared_keys. by exists afield.
Qed.

Section Report.
Context {W : Type} `{!Externals W}.

(** C2, as the code has it.  When the loop over the declared attributes
    ends without an exception, the constructor fails with one report of the
    missing arguments that names every required attribute without an entry,
    if there is any; only when there is none it fails with one report of
    the unsupported arguments that names every keyword that is neither
    declared nor taken by an include, if there is any; otherwise it
    succeeds.  The two sets are disjoint, so a report of missing arguments
    names no unsupported keyword. *)
Theorem init_reports_first_failing_check (cls : klass) (self kwargs : dict)
  (st : init_state) (w w' : W) :
  NoDup (dict_keys (declared_attributes cls)) →
  init_loop cls self kwargs w = (Ok st, w') →
  let missing := missing_arguments cls kwargs in
  let unsupported := unsupported_arguments cls kwargs in
  Attributee___init__ cls self kwargs w
  = ((if decide (missing ≠ ∅) then Raise (MissingArguments missing)
      else if decide (unsupported ≠ ∅) then Raise (UnsupportedArguments unsupported)
      else Ok (self_dict st)), w') ∧
  missing ## unsupported.
Proof.
  intros Hnd Hloop missing unsupported. split; [|apply missing_not_supplied].
  rewrite Attributee___init___loop. unfold mbind, M_bind. rewrite Hloop.
  unfold init_loop in Hloop. apply init_loop_sets in Hloop as [Hs Hc].
  simpl in Hs, Hc. rewrite unspecified_after_loop in Hs by done.
  rewrite unconsumed_after_loop in Hc.
  unfold init_checks. rewrite Hs, Hc.
  fold missing. fold unsupported.
  destruct (decide (missing ≠ ∅)); [done|].
  destruct (decide (unsupported ≠ ∅)); done.
Qed.

(** An exception raised inside the loop, by the coercion of an attribute,
    ends the constructor at once. *)
Lemma init_loop_raises (cls : klass) (self kwargs : dict) (e : exn) (w w' : W) :
  init_loop cls self kwargs w = (Raise e, w') →
  Attributee___init__ cls self kwargs w = (Raise e, w').
Proof.
  intros Hloop. rewrite Attributee___init___loop. unfold mbind, M_bind. by rewrite Hloop.
Qed.
End Report.

Lemma init_reports_first_failing_check_witness :
  let kwargs := [("z", VInt 2)] in
  let missing := missing_arguments Point kwargs in
  let unsupported := unsupported_arguments Point kwargs in
  @Attributee___init__ _ plain_externals Point [] kwargs ()
  = ((if decide (missing ≠ ∅) then Raise (MissingArguments missing)
      else if decide (unsupported ≠ ∅) then Raise (UnsupportedArguments unsupported)
      else Ok [("y", VInt 0)]), ()) ∧
  missing ## unsupported.
Proof.
  apply (@init_reports_first_failing_check unit plain_externals Point [] [("z", VInt 2)]
           {| self_dict := [("y", VInt 0)];
              unconsumed := list_to_set ["z"] ∖ {["y"]};
              unspecified := list_to_set ["x"; "y"] ∖ {["y"]} |} () ()).
  - apply (bool_decide_unpack (NoDup (dict_keys (declared_attributes Point)))).
    vm_compute. exact I.
  - reflexivity.
Defined.

(** C2 as stated fails: [Point] built from [{"z": 2}] lacks the required
    [x] and is given the undeclared [z]; the one report names [x] and not
    [z]. *)
Lemma aggregated_report_counterexample :
  let kwargs := [("z", VInt 2)] in
  ∃ e, @new _ plain_externals Point kwargs () = (Raise e, ()) ∧
       "x" ∈ missing_arguments Point kwargs ∧
       "z" ∈ unsupported_arguments Point kwargs ∧
       "z" ∉ reported_names e.
Proof.
  exists (MissingArguments (missing_arguments Point [("z", VInt 2)])).
  split; [vm_compute; reflexivity|].
  split; [apply (bool_decide_unpack _); vm_compute; exact I|].
  split; [apply (bool_decide_unpack _); vm_compute; exact I|].
  apply (bool_decide_unpack _). vm_compute. exact I.
Qed.

(** ** Dumping a constructed instance *)

Lemma dict_get_zip_keys {A V : Type} (l : list (string * A)) (xs : list V) (s : list (string * V)) :
  length l = length xs →
  NoDup (dict_keys s ++ dict_keys l) →
  Forall2 (fun field x => dict_get (s ++ zip (dict_keys l) xs) field.1 = Some x) l xs.
Proof.
  revert xs s. induction l as [|[aname afield] l IH]; intros [|x xs] s Hlen Hnd;
    try done.
  change (dict_keys ((aname, afield) :: l)) with (aname :: dict_keys l) in *.
  simpl in Hlen. injection Hlen as Hlen.
  constructor.
  - simpl. apply NoDup_app in Hnd as (_ & Hdisj & _).
    assert (aname ∉ dict_keys s) as Hfresh.
    { intros Hin. apply (Hdisj aname Hin). apply list_elem_of_here. }
    apply dict_get_None_keys in Hfresh.
    clear Hdisj IH. induction s as [|[k v] s IHs]; simpl.
    + by rewrite String.eqb_refl.
    + simpl in Hfresh. destruct (String.eqb k aname); [done|]. by apply IHs.
  - specialize (IH xs (s ++ [(aname, x)]) Hlen).
    rewrite <- app_assoc in IH. simpl in IH. apply IH.
    unfold dict_keys. rewrite fmap_app, <- app_assoc. exact Hnd.
Qed.

Section RoundTrip.
Context {W : Type} `{!Externals W}.

(** One iteration of the loop of the constructor either skips the attribute,
    which is then required and without an entry, or stores what [coerce]
    returned for its input. *)
Lemma init_attribute_store (cls : klass) (kwargs : dict) (aname : string) (afield : attr)
  (st st' : init_state) (w w' : W) :
  init_attribute cls kwargs aname afield (coerce afield) st w = (Ok st', w') →
  (is_Include afield = false ∧ dict_has kwargs aname = false ∧ required afield = true) ∨
  ∃ x, coerced_from cls kwargs (aname, afield) x ∧
       self_dict st' = dict_set (self_dict st) aname x.
Proof.
  unfold init_attribute, coerced_from, field_input, dict_has. simpl.
  destruct (is_Include afield) eqn:Hi.
  - unfold mbind, M_bind.
    destruct (coerce afield _ _ w) as [[x|e] w1] eqn:Hc; [|discriminate].
    intros [= <- <-]. right. exists x. split; [|done]. by exists (self_dict st), w, w1.
  - destruct (dict_get kwargs aname) as [avalue|]; simpl.
    + unfold mbind, M_bind.
      destruct (coerce afield _ _ w) as [[x|e] w1] eqn:Hc; [|discriminate].
      intros [= <- <-]. right. exists x. split; [|done]. by exists (self_dict st), w, w1.
    + destruct (required afield); simpl; [by left|].
      unfold mbind, M_bind.
      destruct (coerce afield _ _ w) as [[x|e] w1] eqn:Hc; [|discriminate].
      intros [= <- <-]. right. exists x. split; [|done]. by exists (self_dict st), w, w1.
Qed.

(** When no attribute is skipped, the loop appends one entry per attribute,
    in the order of declaration. *)
Lemma init_loop_store (cls : klass) (kwargs : dict) (l : list (string * attr))
  (st st' : init_state) (w w' : W) :
  foldM (fun st '(aname, afield) =>
           init_attribute cls kwargs aname afield (coerce afield) st) l st w
  = (Ok st', w') →
  Forall (fun field => ¬ (is_Include field.2 = false ∧ dict_has kwargs field.1 = false
                          ∧ required field.2 = true)) l →
  NoDup (dict_keys (self_dict st) ++ dict_keys l) →
  ∃ xs, Forall2 (coerced_from cls kwargs) l xs ∧
        self_dict st' = self_dict st ++ zip (dict_keys l) xs.
Proof.
  revert st w. induction l as [|[aname afield] l IH]; intros st w Hloop Hall Hnd.
  - simpl in Hloop. injection Hloop as <- <-. exists []. split; [constructor|].
    simpl. by rewrite app_nil_r.
  - simpl in Hloop. unfold mbind at 1, M_bind at 1 in Hloop.
    destruct (init_attribute cls kwargs aname afield (coerce afield) st w)
      as [[st1|e] w1] eqn:Hstep; [|discriminate].
    apply Forall_cons in Hall as [Hhere Hall].
    apply init_attribute_store in Hstep as [Hskip|(x & Hx & Hst1)]; [done|].
    change (dict_keys ((aname, afield) :: l)) with (aname :: dict_keys l) in *.
    assert (aname ∉ dict_keys (self_dict st)) as Hfresh.
    { apply NoDup_app in Hnd as (_ & Hdisj & _).
      intros Hin. apply (Hdisj aname Hin). apply list_elem_of_here. }
    rewrite dict_set_notin in Hst1 by done.
    destruct (IH st1 w1 Hloop Hall) as (xs & Hxs & Hst').
    { rewrite Hst1. unfold dict_keys. rewrite fmap_app, <- app_assoc. exact Hnd. }
    exists (x :: xs). split; [by constructor|].
    rewrite Hst', Hst1, <- app_assoc. done.
Qed.

(** A construction that succeeds has no missing argument. *)
Lemma new_Ok_loop (cls : klass) (kwargs : dict) (inst : value) (w w' : W) :
  NoDup (dict_keys (declared_attributes cls)) →
  new cls kwargs w = (Ok inst, w') →
  ∃ st, init_loop cls [] kwargs w = (Ok st, w') ∧
        inst = VInstance cls (self_dict st) ∧
        missing_arguments cls kwargs = ∅.
Proof.
  intros Hnd. unfold new. rewrite Attributee___init___loop.
  unfold fmap, M_fmap, mbind, M_bind.
  destruct (init_loop cls [] kwargs w) as [[st|e] w1] eqn:Hloop; [|discriminate].
  unfold init_checks.
  destruct (decide (unspecified st ≠ ∅)) as [|Hs]; [discriminate|].
  destruct (decide (unconsumed st ≠ ∅)); [discriminate|].
  unfold mret, M_ret. intros [= <- <-]. exists st. split; [done|]. split; [done|].
  unfold init_loop in Hloop. apply init_loop_sets in Hloop as [Hu _].
  simpl in Hu. rewrite unspecified_after_loop in Hu by done.
  rewrite <- Hu. destruct (decide (unspecified st = ∅)); [done|]. by exfalso; apply Hs.
Qed.

(** [Attributee.dump] on a [__dict__] that holds a value for every declared
    attribute. *)
Lemma dump_attributes_entries (l : list (string * attr)) (xs : list value) (d s : dict) :
  Forall2 (fun field x => dict_get d field.1 = Some x) l xs →
  foldR (fun serialized '(aname, afield) =>
           match afield with
           | Include _ _ =>
               sub ← with_item aname (attr_dump afield) (Raise (NoAttribute "dump")) d;
               match sub with
               | VDict e => Ok (dict_update serialized e)
               | _ => Raise TypeError
               end
           | Attribute dflt | Nested _ _ dflt | Integer _ _ dflt | Boolean dflt
           | String dflt | List _ _ dflt | Map _ dflt | Object _ dflt
           | Callable dflt =>
               x ← with_item aname (attr_dump afield) (attr_dump afield dflt) d;
               Ok (dict_set serialized aname x)
           end) l s
  = foldR (fun serialized '(aname, afield, x) =>
           if is_Include afield then
             sub ← attr_dump afield x;
             match sub with
             | VDict e => Ok (dict_update serialized e)
             | _ => Raise TypeError
             end
           else
             y ← attr_dump afield x;
             Ok (dict_set serialized aname y)) (zip l xs) s.
Proof.
  intros Hall. revert s. induction Hall as [|[aname afield] x l xs Hget Hall IH]; intros s.
  - done.
  - simpl in Hget. cbn [zip zip_with foldR].
    assert (∀ k : dict → result dict,
      (mbind k (match afield with
           | Include _ _ =>
               sub ← with_item aname (attr_dump afield) (Raise (NoAttribute "dump")) d;
               match sub with
               | VDict e => Ok (dict_update s e)
               | _ => Raise TypeError
               end
           | Attribute dflt | Nested _ _ dflt | Integer _ _ dflt | Boolean dflt
           | String dflt | List _ _ dflt | Map _ dflt | Object _ dflt
           | Callable dflt =>
               x ← with_item aname (attr_dump afield) (attr_dump afield dflt) d;
               Ok (dict_set s aname x)
           end))
      = mbind k (if is_Include afield then
             sub ← attr_dump afield x;
             match sub with
             | VDict e => Ok (dict_update s e)
             | _ => Raise TypeError
             end
           else
             y ← attr_dump afield x;
             Ok (dict_set s aname y))) as Hstep.
    { intros k. destruct afield; rewrite with_item_get, Hget; reflexivity. }
    rewrite Hstep. destruct (is_Include afield).
    + destruct (attr_dump afield x) as [[]|]; simpl; try done; apply IH.
    + destruct (attr_dump afield x) as [y|]; simpl; [apply IH|done].
Qed.
End RoundTrip.

Section RoundTripTheorems.
Context {W : Type} `{!Externals W}.

Lemma new_Ok_entries (cls : klass) (kwargs : dict) (inst : value) (w w' : W) :
  NoDup (dict_keys (declared_attributes cls)) →
  new cls kwargs w = (Ok inst, w') →
  ∃ xs, inst = VInstance cls (zip (dict_keys (declared_attributes cls)) xs) ∧
        Forall2 (coerced_from cls kwargs) (declared_attributes cls) xs.
Proof.
  intros Hnd Hnew.
  destruct (new_Ok_loop _ _ _ _ _ Hnd Hnew) as (st & Hloop & -> & Hmiss).
  unfold init_loop in Hloop.
  apply init_loop_store in Hloop as (xs & Hxs & Hst).
  - exists xs. split; [|done]. by rewrite Hst.
  - apply Forall_forall. intros [aname afield] Hin (Hi & Hh & Hr). simpl in *.
    assert (aname ∈ missing_arguments cls kwargs) as Hm.
    { apply elem_of_missing_arguments. by exists afield. }
    rewrite Hmiss in Hm. by apply elem_of_empty in Hm.
  - done.
Qed.

Lemma coerced_in_turn_length (cls : klass) (kwargs : dict) (l : list (string * attr))
  (self : dict) (w : W) (xs : list value) (w' : W) :
  coerced_in_turn cls kwargs l self w xs w' → length xs = length l.
Proof.
  revert self w xs. induction l as [|[aname afield] l IH]; intros self w [|x xs]; try done.
  simpl. intros (w1 & _ & Hrest). f_equal. by eapply IH.
Qed.

(** One iteration of the loop of the constructor either skips the attribute,
    which is then required and without an entry, or stores what [coerce]
    returned for its input, in the state it was given and with the instance
    as it stands as parent. *)
Lemma init_attribute_run (cls : klass) (kwargs : dict) (aname : string) (afield : attr)
  (st st' : init_state) (w w' : W) :
  init_attribute cls kwargs aname afield (coerce afield) st w = (Ok st', w') →
  (is_Include afield = false ∧ dict_has kwargs aname = false ∧ required afield = true) ∨
  ∃ x, coerce afield (field_input kwargs aname afield)
         (Some [("parent", VInstance cls (self_dict st))]) w = (Ok x, w')
       ∧ self_dict st' = dict_set (self_dict st) aname x.
Proof.
  unfold init_attribute, field_input, dict_has.
  destruct (is_Include afield) eqn:Hi.
  - unfold mbind, M_bind.
    destruct (coerce afield _ _ w) as [[x|e] w1] eqn:Hc; [|discriminate].
    intros [= <- <-]. right. by exists x.
  - destruct (dict_get kwargs aname) as [avalue|]; simpl.
    + unfold mbind, M_bind.
      destruct (coerce afield _ _ w) as [[x|e] w1] eqn:Hc; [|discriminate].
      intros [= <- <-]. right. by exists x.
    + destruct (required afield); simpl; [by left|].
      unfold mbind, M_bind.
      destruct (coerce afield _ _ w) as [[x|e] w1] eqn:Hc; [|discriminate].
      intros [= <- <-]. right. by exists x.
Qed.

Lemma init_loop_run (cls : klass) (kwargs : dict) (l : list (string * attr))
  (st st' : init_state) (w w' : W) :
  foldM (fun st '(aname, afield) =>
           init_attribute cls kwargs aname afield (coerce afield) st) l st w
  = (Ok st', w') →
  Forall (fun field => ¬ (is_Include field.2 = false ∧ dict_has kwargs field.1 = false
                          ∧ required field.2 = true)) l →
  NoDup (dict_keys (self_dict st) ++ dict_keys l) →
  ∃ xs, coerced_in_turn cls kwargs l (self_dict st) w xs w' ∧
        self_dict st' = self_dict st ++ zip (dict_keys l) xs.
Proof.
  revert st w. induction l as [|[aname afield] l IH]; intros st w Hloop Hall Hnd.
  - simpl in Hloop. injection Hloop as <- <-. exists []. split; [done|].
    simpl. by rewrite app_nil_r.
  - simpl in Hloop. unfold mbind at 1, M_bind at 1 in Hloop.
    destruct (init_attribute cls kwargs aname afield (coerce afield) st w)
      as [[st1|e] w1] eqn:Hstep; [|discriminate].
    apply Forall_cons in Hall as [Hhere Hall].
    apply init_attribute_run in Hstep as [Hskip|(x & Hx & Hst1)]; [done|].
    change (dict_keys ((aname, afield) :: l)) with (aname :: dict_keys l) in *.
    assert (aname ∉ dict_keys (self_dict st)) as Hfresh.
    { apply NoDup_app in Hnd as (_ & Hdisj & _).
      intros Hin. apply (Hdisj aname Hin). apply list_elem_of_here. }
    rewrite dict_set_notin in Hst1 by done.
    destruct (IH st1 w1 Hloop Hall) as (xs & Hxs & Hst').
    { rewrite Hst1. unfold dict_keys. rewrite fmap_app, <- app_assoc. exact Hnd. }
    exists (x :: xs). split.
    + simpl. exists w1. split; [done|]. by rewrite <- Hst1.
    + rewrite Hst', Hst1, <- app_assoc. done.
Qed.

Lemma new_Ok_run (cls : klass) (kwargs : dict) (inst : value) (w w' : W) :
  NoDup (dict_keys (declared_attributes cls)) →
  new cls kwargs w = (Ok inst, w') →
  ∃ xs, inst = VInstance cls (zip (dict_keys (declared_attributes cls)) xs) ∧
        coerced_in_turn cls kwargs (declared_attributes cls) [] w xs w'.
Proof.
  intros Hnd Hnew.
  destruct (new_Ok_loop _ _ _ _ _ Hnd Hnew) as (st & Hloop & -> & Hmiss).
  unfold init_loop in Hloop.
  apply init_loop_run in Hloop as (xs & Hxs & Hst).
  - exists xs. split; [|done]. by rewrite Hst.
  - apply Forall_forall. intros [aname afield] Hin (Hi & Hh & Hr). simpl in *.
    assert (aname ∈ missing_arguments cls kwargs) as Hm.
    { apply elem_of_missing_arguments. by exists afield. }
    rewrite Hmiss in Hm. by apply elem_of_empty in Hm.
  - done.
Qed.

(** Without includes and with distinct names, the loop of [dump] makes one
    entry per attribute, in their order. *)
Lemma dump_entries_mapR (l : list (string * attr)) (xs : list value) (s : dict) :
  Forall (fun field => is_Include field.2 = false) l →
  NoDup (dict_keys s ++ dict_keys l) →
  foldR (fun serialized '(aname, afield, x) =>
           if is_Include afield then
             sub ← attr_dump afield x;
             match sub with
             | VDict e => Ok (dict_update serialized e)
             | _ => Raise TypeError
             end
           else
             y ← attr_dump afield x;
             Ok (dict_set serialized aname y)) (zip l xs) s
  = (fun entries => s ++ entries)
      <$> mapR (fun '(aname, afield, x) => y ← attr_dump afield x; Ok (aname, y))
            (zip l xs).
Proof.
  intros Hinc. revert xs s.
  induction Hinc as [|[aname afield] l Hi Hinc IH]; intros xs s Hnd.
  - simpl. by rewrite app_nil_r.
  - destruct xs as [|x xs]; [simpl; by rewrite app_nil_r|].
    simpl in Hi. cbn [zip zip_with foldR mapR]. rewrite Hi.
    destruct (attr_dump afield x) as [y|e]; [|done]. simpl.
    change (dict_keys ((aname, afield) :: l)) with (aname :: dict_keys l) in Hnd.
    assert (aname ∉ dict_keys s) as Hfresh.
    { apply NoDup_app in Hnd as (_ & Hdisj & _).
      intros Hin. apply (Hdisj aname Hin). apply list_elem_of_here. }
    rewrite dict_set_notin by done. rewrite IH.
    + destruct (mapR _ (zip l xs)) as [entries|e]; simpl; [|done].
      by rewrite <- app_assoc.
    + unfold dict_keys. rewrite fmap_app, <- app_assoc. exact Hnd.
Qed.

(** X1.  A construction that succeeds leaves in the instance exactly one
    attribute per declared attribute, in the order of declaration.  The
    value of each is what [coerce] of its descriptor returned for its input
    (the keyword argument of that name, the default when the argument is
    absent, the filtered keyword arguments for an include), called in the
    state of the collaborators that the attribute before it left and with
    the instance as parent, which then holds the attributes before it; the
    state after the last call is the state after the construction. *)
Theorem constructed_instance_entries (cls : klass) (kwargs : dict) (inst : value)
  (w w' : W) :
  NoDup (dict_keys (declared_attributes cls)) →
  new cls kwargs w = (Ok inst, w') →
  ∃ xs, inst = VInstance cls (zip (dict_keys (declared_attributes cls)) xs) ∧
        length xs = length (declared_attributes cls) ∧
        coerced_in_turn cls kwargs (declared_attributes cls) [] w xs w' ∧
        ∀ aname, instance_getattr inst aname ≠ None
                 ↔ aname ∈ dict_keys (declared_attributes cls).
Proof.
  intros Hnd Hnew. destruct (new_Ok_run _ _ _ _ _ Hnd Hnew) as (xs & -> & Hxs).
  pose proof (coerced_in_turn_length _ _ _ _ _ _ _ Hxs) as Hlen.
  exists xs. split; [done|]. split; [done|]. split; [done|].
  intros aname. unfold instance_getattr.
  assert (dict_keys (zip (dict_keys (declared_attributes cls)) xs)
          = dict_keys (declared_attributes cls)) as Hkeys.
  { unfold dict_keys at 1. apply fst_zip. unfold dict_keys. rewrite length_fmap. lia. }
  by rewrite not_eq_None_Some, dict_get_is_Some_keys, Hkeys.
Qed.

(** X2.  The dump of a constructed instance is the loop of [dump] over the
    declared attributes, each paired with the value that the instance holds
    for it, which is the one its descriptor coerced during the
    construction.  When the class has no include, the dump has one entry per
    declared attribute, under its name and in the order of declaration,
    holding the descriptor's dump of that value, and it raises what the
    first dump that fails raises. *)
Theorem dump_of_constructed (cls : klass) (kwargs : dict) (inst : value) (w w' : W) :
  NoDup (dict_keys (declared_attributes cls)) →
  new cls kwargs w = (Ok inst, w') →
  ∃ xs, inst = VInstance cls (zip (dict_keys (declared_attributes cls)) xs) ∧
        coerced_in_turn cls kwargs (declared_attributes cls) [] w xs w' ∧
        Attributee_dump inst = dump_entries attr_dump (zip (declared_attributes cls) xs) ∧
        (Forall (fun field => is_Include field.2 = false) (declared_attributes cls) →
         Attributee_dump inst
         = mapR (fun '(aname, afield, x) => y ← attr_dump afield x; Ok (aname, y))
             (zip (declared_attributes cls) xs)).
Proof.
  intros Hnd Hnew. destruct (new_Ok_run _ _ _ _ _ Hnd Hnew) as (xs & -> & Hxs).
  pose proof (coerced_in_turn_length _ _ _ _ _ _ _ Hxs) as Hlen.
  assert (Attributee_dump (VInstance cls (zip (dict_keys (declared_attributes cls)) xs))
          = dump_entries attr_dump (zip (declared_attributes cls) xs)) as Hdump.
  { unfold Attributee_dump, dump_attributes, dump_entries.
    apply dump_attributes_entries.
    apply (dict_get_zip_keys (declared_attributes cls) xs []); [done|done]. }
  exists xs. split; [done|]. split; [done|]. split; [done|].
  intros Hinc. rewrite Hdump. unfold dump_entries.
  rewrite dump_entries_mapR by done.
  by destruct (mapR _ (zip (declared_attributes cls) xs)).
Qed.

(** With values that [coerce] and [dump] leave as they are, the dump is the
    list of the inputs. *)
Lemma dump_entries_fixed (kwargs : dict) (l : list (string * attr)) (xs : list value) :
  Forall2 (fun field x => is_Include field.2 = false
                          ∧ x = field_input kwargs field.1 field.2
                          ∧ attr_dump field.2 x = Ok x) l xs →
  ∀ s, NoDup (dict_keys s ++ dict_keys l) →
       foldR (fun serialized '(aname, afield, x) =>
                if is_Include afield then
                  sub ← attr_dump afield x;
                  match sub with
                  | VDict e => Ok (dict_update serialized e)
                  | _ => Raise TypeError
                  end
                else
                  y ← attr_dump afield x;
                  Ok (dict_set serialized aname y)) (zip l xs) s
       = Ok (s ++ ((fun '(aname, afield) => (aname, field_input kwargs aname afield)) <$> l)).
Proof.
  induction 1 as [|[aname afield] x l xs (Hi & Hx & Hd) Hall IH]; intros s Hnd.
  - simpl. by rewrite app_nil_r.
  - simpl in Hi, Hx, Hd. cbn [zip zip_with foldR]. rewrite Hi, Hd. simpl.
    change (dict_keys ((aname, afield) :: l)) with (aname :: dict_keys l) in Hnd.
    assert (aname ∉ dict_keys s) as Hfresh.
    { apply NoDup_app in Hnd as (_ & Hdisj & _).
      intros Hin. apply (Hdisj aname Hin). apply list_elem_of_here. }
    rewrite dict_set_notin by done. rewrite IH.
    + rewrite <- app_assoc. simpl. by rewrite Hx.
    + unfold dict_keys. rewrite fmap_app, <- app_assoc. exact Hnd.
Qed.

(** X3.  Round trip.  When the class has no include and the input of every
    declared attribute (the keyword argument, else the default) is a value
    that [coerce] and [dump] of its descriptor return unchanged, the dump of
    the constructed instance is the keyword arguments with the defaults made
    explicit, in the order of declaration. *)
Theorem dump_new_round_trip (cls : klass) (kwargs : dict) (inst : value) (w w' : W) :
  NoDup (dict_keys (declared_attributes cls)) →
  Forall (fun field => is_Include field.2 = false
                       ∧ fixed_point field.2 (field_input kwargs field.1 field.2))
    (declared_attributes cls) →
  new cls kwargs w = (Ok inst, w') →
  Attributee_dump inst = Ok (materialized cls kwargs).
Proof.
  intros Hnd Hfix Hnew. destruct (new_Ok_entries _ _ _ _ _ Hnd Hnew) as (xs & -> & Hxs).
  unfold Attributee_dump, dump_attributes.
  rewrite (dump_attributes_entries _ xs).
  - rewrite (dump_entries_fixed kwargs); [done| |done].
    clear Hnd Hnew. induction Hxs as [|[aname afield] x l xs Hx Hall IH]; [constructor|].
    apply Forall_cons in Hfix as [[Hi [Hc Hd]] Hfix]. simpl in Hi, Hc, Hd.
    destruct Hx as (self & w1 & w2 & Hx). simpl in Hx. rewrite Hc in Hx.
    injection Hx as <- _. constructor; [done|]. by apply IH.
  - apply (dict_get_zip_keys (declared_attributes cls) xs []);
      [by eapply Forall2_length|done].
Qed.
End RoundTripTheorems.

Lemma constructed_instance_entries_witness :
  let ext := logging_externals 1 in
  let kwargs :=
    [("shapes", VDict [("first", VDict [("type", VStr "Circle"); ("radius", VStr "5")])]);
     ("title", VStr "round")] in
  let circle := VInstance Circle [("radius", VInt 5)] in
  let inst :=
    VInstance Gallery
      [("title", VStr "round"); ("shapes", VReadonlyMapping [("first", circle)])] in
  let log :=
    [("default_object_resolver", VStr "Circle",
      Some [("key", VStr "first");
            ("parent", VInstance Gallery [("title", VStr "round")])],
      [("radius", VStr "5")])] in
  ∃ xs, inst = VInstance Gallery (zip (dict_keys (declared_attributes Gallery)) xs) ∧
        length xs = length (declared_attributes Gallery) ∧
        coerced_in_turn Gallery kwargs (declared_attributes Gallery) [] [] xs log ∧
        ∀ aname, instance_getattr inst aname ≠ None
                 ↔ aname ∈ dict_keys (declared_attributes Gallery).
Proof.
  intros ext kwargs circle inst log.
  apply (@constructed_instance_entries _ (logging_externals 1) Gallery kwargs inst [] log).
  - apply (bool_decide_unpack (NoDup (dict_keys (declared_attributes Gallery)))).
    vm_compute. exact I.
  - vm_compute. reflexivity.
Defined.

Lemma dump_of_constructed_witness :
  let inst := VInstance Point [("x", VInt 5); ("y", VInt 0)] in
  let kwargs := [("x", VStr "5")] in
  ∃ xs, inst = VInstance Point (zip (dict_keys (declared_attributes Point)) xs) ∧
        @coerced_in_turn unit plain_externals Point kwargs (declared_attributes Point)
          [] () xs () ∧
        @Attributee_dump unit plain_externals inst
        = dump_entries (@attr_dump unit plain_externals) (zip (declared_attributes Point) xs) ∧
        (Forall (fun field => is_Include field.2 = false) (declared_attributes Point) →
         @Attributee_dump unit plain_externals inst
         = mapR (fun '(aname, afield, x) =>
                   y ← @attr_dump unit plain_externals afield x; Ok (aname, y))
             (zip (declared_attributes Point) xs)).
Proof.
  intros inst kwargs.
  apply (@dump_of_constructed unit plain_externals Point kwargs inst () ()).
  - apply (bool_decide_unpack (NoDup (dict_keys (declared_attributes Point)))).
    vm_compute. exact I.
  - vm_compute. reflexivity.
Defined.

Lemma dump_new_round_trip_witness :
  @Attributee_dump unit plain_externals (VInstance Point [("x", VInt 5); ("y", VInt 0)])
  = Ok (materialized Point [("x", VInt 5)]).
Proof.
  apply (@dump_new_round_trip unit plain_externals Point [("x", VInt 5)]
           (VInstance Point [("x", VInt 5); ("y", VInt 0)]) () ()).
  - apply (bool_decide_unpack (NoDup (dict_keys (declared_attributes Point)))).
    vm_compute. exact I.
  - repeat constructor.
  - vm_compute. reflexivity.
Defined.

(** ** What an include takes from the keyword arguments *)

Lemma dict_get_elem_of {V : Type} (d : list (string * V)) (k : string) (v : V) :
  dict_get d k = Some v → (k, v) ∈ d.
Proof.
  induction d as [|[k' v'] d IH]; simpl; [done|].
  destruct (String.eqb k' k) eqn:E.
  - apply String.eqb_eq in E. intros [= ->]. subst. apply list_elem_of_here.
  - intros H. apply list_elem_of_further. by apply IH.
Qed.

Lemma elem_of_dict_set {V : Type} (d : list (string * V)) (k k' : string) (v v' : V) :
  (k', v') ∈ dict_set d k v → (k', v') ∈ d ∨ (k' = k ∧ v' = v).
Proof.
  induction d as [|[k0 v0] d IH]; simpl.
  - intros H. apply list_elem_of_singleton in H. injection H as -> ->. by right.
  - destruct (String.eqb k0 k).
    + intros [H|H]%elem_of_cons; [injection H as -> ->; by right|].
      left. by apply list_elem_of_further.
    + intros [H|H]%elem_of_cons; [left; rewrite H; apply list_elem_of_here|].
      destruct (IH H) as [?|?]; [left; by apply list_elem_of_further|by right].
Qed.

Lemma elem_of_dict_update {V : Type} (d x : list (string * V)) (kv : string * V) :
  kv ∈ dict_update d x → kv ∈ d ∨ kv ∈ x.
Proof.
  revert d. induction x as [|[k0 v0] x IH]; intros d; [by left|].
  rewrite dict_update_cons. intros [H|H]%IH.
  - destruct kv as [k v]. apply elem_of_dict_set in H as [H|[-> ->]]; [by left|].
    right. apply list_elem_of_here.
  - right. by apply list_elem_of_further.
Qed.

Lemma filter_attributes_elem_of (acls : klass) (kwargs : dict) (k : string) (v : value) :
  (k, v) ∈ filter_attributes acls kwargs → dict_get kwargs k = Some v.
Proof.
  revert acls kwargs k v. fix IH 1. intros [n attributes] kwargs k v. simpl.
  assert (∀ acc : dict,
            ((k, v) ∈ acc → dict_get kwargs k = Some v) →
            (k, v) ∈ fold_left
                     (fun filtered '(aname, afield) =>
                        match afield with
                        | Include acls' _ => dict_update filtered (filter_attributes acls' kwargs)
                        | _ =>
                            match dict_get kwargs aname with
                            | Some v => dict_set filtered aname v
                            | None => filtered
                            end
                        end) attributes acc →
            dict_get kwargs k = Some v) as Hfold.
  { induction attributes as [|[aname afield] l IHl]; intros acc Hacc; simpl; [done|].
    apply IHl.
    assert ((k, v) ∈ match dict_get kwargs aname with
                     | Some v => dict_set acc aname v
                     | None => acc
                     end → dict_get kwargs k = Some v) as Hplain.
    { destruct (dict_get kwargs aname) as [v0|] eqn:E; [|done].
      intros [H|[-> ->]]%elem_of_dict_set; [by apply Hacc|done]. }
    destruct afield; try exact Hplain.
    intros [Hk|Hk]%elem_of_dict_update; [by apply Hacc|]. by eapply IH. }
  apply Hfold. intros H. by apply elem_of_nil in H.
Qed.

Lemma filter_attributes_NoDup (acls : klass) (kwargs : dict) :
  NoDup (dict_keys (filter_attributes acls kwargs)).
Proof.
  destruct acls as [n attributes]. simpl.
  assert (∀ acc : dict,
            NoDup (dict_keys acc) →
            NoDup (dict_keys (fold_left
                     (fun filtered '(aname, afield) =>
                        match afield with
                        | Include acls' _ => dict_update filtered (filter_attributes acls' kwargs)
                        | _ =>
                            match dict_get kwargs aname with
                            | Some v => dict_set filtered aname v
                            | None => filtered
                            end
                        end) attributes acc))) as Hfold.
  { induction attributes as [|[aname afield] l IHl]; intros acc Hacc; simpl; [done|].
    apply IHl.
    assert (NoDup (dict_keys (match dict_get kwargs aname with
                              | Some v => dict_set acc aname v
                              | None => acc
                              end))) as Hplain.
    { destruct (dict_get kwargs aname); [by apply dict_set_NoDup|done]. }
    destruct afield; try exact Hplain. by apply dict_update_NoDup. }
  apply Hfold. apply NoDup_nil_2.
Qed.

Lemma filter_attributes_flat (kwargs : dict) (attributes : list (string * attr))
  (acc : dict) (k : string) :
  Forall (fun field => is_Include field.2 = false) attributes →
  dict_get (fold_left
              (fun filtered '(aname, afield) =>
                 match afield with
                 | Include acls' _ => dict_update filtered (filter_attributes acls' kwargs)
                 | _ =>
                     match dict_get kwargs aname with
                     | Some v => dict_set filtered aname v
                     | None => filtered
                     end
                 end) attributes acc) k
  = match dict_get kwargs k with
    | Some v => if dict_has attributes k then Some v else dict_get acc k
    | None => dict_get acc k
    end.
Proof.
  revert acc. induction attributes as [|[aname afield] l IHl]; intros acc Hflat.
  - simpl. by destruct (dict_get kwargs k).
  - apply Forall_cons in Hflat as [Hi Hflat]. simpl in Hi. simpl fold_left.
    assert (match afield with
            | Include acls' _ => dict_update acc (filter_attributes acls' kwargs)
            | _ => match dict_get kwargs aname with
                   | Some v => dict_set acc aname v
                   | None => acc
                   end
            end = match dict_get kwargs aname with
                  | Some v => dict_set acc aname v
                  | None => acc
                  end) as -> by by destruct afield.
    rewrite IHl by done. unfold dict_has. simpl.
    destruct (String.eqb aname k) eqn:E.
    + apply String.eqb_eq in E. subst k.
      destruct (dict_get kwargs aname) as [v|] eqn:Hv; [|done].
      rewrite dict_get_set_eq. by destruct (dict_get l aname).
    + apply String.eqb_neq in E.
      assert (dict_get match dict_get kwargs aname with
                       | Some v => dict_set acc aname v
                       | None => acc
                       end k = dict_get acc k) as ->; [|done].
      destruct (dict_get kwargs aname); [by apply dict_get_set_ne|done].
Qed.

(** X4.  [Include.filter] returns a part of the keyword arguments: every
    entry of the result is an entry of the keyword arguments with the same
    value, and no key occurs twice.  When the included class declares no
    include of its own, the result holds exactly the keyword arguments whose
    name the included class declares. *)
Theorem Include_filter_submapping (acls : klass) (r : bool) (kwargs : dict) :
  let filtered := Include_filter (Include acls r) kwargs in
  (∀ k v, dict_get filtered k = Some v → dict_get kwargs k = Some v) ∧
  NoDup (dict_keys filtered) ∧
  (Forall (fun field => is_Include field.2 = false) (declared_attributes acls) →
   ∀ k, dict_get filtered k
        = if dict_has (declared_attributes acls) k then dict_get kwargs k else None).
Proof.
  simpl. split; [|split].
  - intros k v Hk. eapply filter_attributes_elem_of. by apply dict_get_elem_of.
  - apply filter_attributes_NoDup.
  - intros Hflat k. destruct acls as [n attributes]. simpl in *.
    rewrite filter_attributes_flat by done.
    destruct (dict_get kwargs k); [done|]. by destruct (dict_has attributes k).
Qed.

(** ** Map coercion *)

Section MapCoercion.
Context {W : Type} `{!Externals W}.

Lemma Map_coerce_loop (elem : value → option context → M W value) (ctx : context)
  (d acc : dict) (w : W) :
  dict_get ctx "key" = None →
  NoDup (dict_keys acc ++ dict_keys d) →
  foldM (fun container '(name, data) =>
           elem' ← get_slot "_contains" (Some elem);
           ctx' ← with_key (VStr name) ctx;
           x ← elem' data (Some ctx');
           mret (dict_set container name x)) d acc w
  = (app acc <$> mapM (fun '(name, data) =>
                         x ← elem data (Some (("key", VStr name) :: ctx));
                         mret (name, x)) d) w.
Proof.
  intros Hkey. unfold with_key. rewrite Hkey. msimpl.
  revert acc w. induction d as [|[name data] d IH]; intros acc w Hnd.
  - simpl. by rewrite app_nil_r.
  - change (dict_keys ((name, data) :: d)) with (name :: dict_keys d) in Hnd.
    assert (name ∉ dict_keys acc) as Hfresh.
    { apply NoDup_app in Hnd as (_ & Hdisj & _).
      intros Hin. apply (Hdisj name Hin). apply list_elem_of_here. }
    simpl. unfold mbind, M_bind, mret, M_ret.
    destruct (elem data _ w) as [[x|e] w1]; [|done].
    rewrite dict_set_notin by done. rewrite IH.
    + destruct (mapM _ d w1) as [[ys|e] w2]; [|done].
      by rewrite <- app_assoc.
    + unfold dict_keys. rewrite fmap_app, <- app_assoc. exact Hnd.
Qed.

(** X5.  In a context without a ["key"] entry, [Map.coerce] of a mapping
    coerces the values in the order of the entries, each with the element
    descriptor in the context extended by the key of the entry under
    ["key"], and returns a read-only mapping with the same keys in the same
    order; the first failure of an element ends it.  A value that is not a
    mapping raises the conversion exception. *)
Theorem Map_coerce_entries (contains : attr) (dflt : value) (d : dict)
  (ctx : option context) (w : W) :
  dict_get (context_or_empty ctx) "key" = None →
  NoDup (dict_keys d) →
  let coerced :=
    mapM (fun '(name, data) =>
            x ← coerce contains data (Some (("key", VStr name) :: context_or_empty ctx));
            mret (name, x)) d in
  coerce (Map contains dflt) (VDict d) ctx w = (VReadonlyMapping <$> coerced) w ∧
  coerce (Map contains dflt) (VReadonlyMapping d) ctx w = (VReadonlyMapping <$> coerced) w ∧
  (∀ m w', coerce (Map contains dflt) (VDict d) ctx w = (Ok m, w') →
           ∃ e, m = VReadonlyMapping e ∧ dict_keys e = dict_keys d) ∧
  (∀ v, match v with VDict _ | VReadonlyMapping _ => False | _ => True end →
        coerce (Map contains dflt) v ctx w = (Raise (UnableToConvert "dict"), w)).
Proof.
  intros Hkey Hnd coerced.
  assert (∀ v, v = VDict d ∨ v = VReadonlyMapping d →
               coerce (Map contains dflt) v ctx w = (VReadonlyMapping <$> coerced) w) as Hboth.
  { intros v Hv. assert (coerce (Map contains dflt) v ctx w
                         = (VReadonlyMapping <$>
                              foldM (fun container '(name, data) =>
                                       elem' ← get_slot "_contains" (Some (coerce contains));
                                       ctx' ← with_key (VStr name) (context_or_empty ctx);
                                       x ← elem' data (Some ctx');
                                       mret (dict_set container name x)) d []) w) as ->.
    { destruct Hv as [-> | ->]; reflexivity. }
    unfold fmap at 1, M_fmap at 1. rewrite Map_coerce_loop by done.
    unfold coerced. unfold fmap, M_fmap.
    by destruct (mapM _ d w) as [[ys|e] w1]. }
  split; [apply Hboth; by left|]. split; [apply Hboth; by right|]. split.
  - intros m w' Hm. rewrite Hboth in Hm by by left.
    unfold fmap, M_fmap in Hm.
    destruct (coerced w) as [[ys|e] w1] eqn:Hys; [|discriminate].
    injection Hm as <- <-. exists ys. split; [done|].
    clear -Hys. unfold coerced in Hys. clear coerced.
    revert ys w w1 Hys. induction d as [|[name data] d IH]; intros ys w w1 Hys.
    + simpl in Hys. injection Hys as <- <-. done.
    + simpl in Hys. msimpl.
      destruct (coerce contains data _ w) as [[x|e] w2]; [|discriminate].
      destruct (mapM _ d w2) as [[ys'|e] w3] eqn:Hrest; [|discriminate].
      injection Hys as <- <-. unfold dict_keys in *. rewrite !fmap_cons. simpl.
      f_equal. by eapply IH.
  - intros v Hv. destruct v; try done.
Qed.
End MapCoercion.

Lemma Map_coerce_entries_witness :
  let d := [("a", VStr "1"); ("b", VInt 2)] in
  let ctx := Some [("parent", VNone)] in
  let coerced :=
    mapM (fun '(name, data) =>
            x ← @coerce unit plain_externals (Integer None None VUndefined) data
                  (Some (("key", VStr name) :: context_or_empty ctx));
            mret (name, x)) d in
  @coerce unit plain_externals (Map (Integer None None VUndefined) VUndefined) (VDict d) ctx ()
  = (VReadonlyMapping <$> coerced) () ∧
  @coerce unit plain_externals (Map (Integer None None VUndefined) VUndefined)
    (VReadonlyMapping d) ctx ()
  = (VReadonlyMapping <$> coerced) () ∧
  (∀ m w', @coerce unit plain_externals (Map (Integer None None VUndefined) VUndefined)
             (VDict d) ctx () = (Ok m, w') →
           ∃ e, m = VReadonlyMapping e ∧ dict_keys e = dict_keys d) ∧
  (∀ v, match v with VDict _ | VReadonlyMapping _ => False | _ => True end →
        @coerce unit plain_externals (Map (Integer None None VUndefined) VUndefined) v ctx ()
        = (Raise (UnableToConvert "dict"), ())).
Proof.
  intros d ctx.
  apply (@Map_coerce_entries unit plain_externals (Integer None None VUndefined) VUndefined
           d ctx ()).
  - reflexivity.
  - apply (bool_decide_unpack (NoDup (dict_keys d))). vm_compute. exact I.
Defined.

(** ** Containers inside containers *)

Lemma split_go_nonempty (sep : string) (s cur : string) (skip : nat) :
  split_go sep skip cur s ≠ [].
Proof.
  revert skip cur. induction s as [|a s IH]; intros skip cur; cbn [split_go]; [done|].
  destruct skip; [|apply IH].
  destruct (String.prefix sep (String.String a s)); [done|apply IH].
Qed.

Section Keyed.
Context {W : Type} `{!Externals W}.

Lemma List_coerce_items_keyed (elem : value → option context → M W value)
  (ctx : context) (k0 x : value) (items : list value) (w : W) :
  dict_get ctx "key" = Some k0 →
  List_coerce_items (Some elem) ctx (x :: items) w = (Raise TypeError, w).
Proof.
  intros Hkey. unfold List_coerce_items, enumerate. simpl.
  unfold with_key. rewrite Hkey. reflexivity.
Qed.

(** X6.  In a context that already holds a ["key"] entry, [List.coerce] of a
    non-empty list, of a string (its split has at least one piece) or of a
    non-empty dict, and [Map.coerce] of a non-empty mapping, raise
    [TypeError] when they build the context of the first item, before any
    element is coerced and without touching a collaborator. *)
Theorem containers_reject_keyed_context (contains : attr) (separator : string)
  (dflt k0 : value) (ctx : context) (w : W) :
  dict_get ctx "key" = Some k0 →
  (∀ x l, coerce (List contains separator dflt) (VList (x :: l)) (Some ctx) w
          = (Raise TypeError, w)) ∧
  (∀ s, separator ≠ "" →
        coerce (List contains separator dflt) (VStr s) (Some ctx) w = (Raise TypeError, w)) ∧
  (∀ k x d, coerce (List contains separator dflt) (VDict ((k, x) :: d)) (Some ctx) w
            = (Raise TypeError, w)) ∧
  (∀ k x d, coerce (Map contains dflt) (VDict ((k, x) :: d)) (Some ctx) w
            = (Raise TypeError, w)).
Proof.
  intros Hkey. repeat split.
  - intros x l. simpl. unfold List_coerce. by eapply List_coerce_items_keyed.
  - intros s Hsep. simpl. unfold List_coerce, str_split.
    destruct separator as [|a sep]; [done|]. msimpl.
    destruct (split_go (String.String a sep) 0 "" s) as [|p ps] eqn:Hsplit.
    { by apply split_go_nonempty in Hsplit. }
    simpl. by eapply List_coerce_items_keyed.
  - intros k x d. simpl. unfold List_coerce. simpl.
    by eapply List_coerce_items_keyed.
  - intros k x d. simpl. unfold Map_coerce. simpl.
    unfold with_key. rewrite Hkey. reflexivity.
Qed.

(** X7.  A [List] or a [Map] whose elements are themselves lists or maps
    cannot coerce a value with a non-empty item in first place, in any
    context: the outer container passes its position under ["key"], and the
    inner one passes ["key"] again. *)
Theorem container_of_containers_raises (contains : attr) (sep sep' : string)
  (dflt dflt' : value) (ctx : option context) (w : W) :
  (∀ x l rest,
     coerce (List (List contains sep dflt) sep' dflt') (VList (VList (x :: l) :: rest)) ctx w
     = (Raise TypeError, w)) ∧
  (∀ k x m rest,
     coerce (List (Map contains dflt) sep' dflt') (VList (VDict ((k, x) :: m) :: rest)) ctx w
     = (Raise TypeError, w)) ∧
  (∀ k x l rest,
     coerce (Map (List contains sep dflt) dflt') (VDict ((k, VList (x :: l)) :: rest)) ctx w
     = (Raise TypeError, w)) ∧
  (∀ k k' x m rest,
     coerce (Map (Map contains dflt) dflt') (VDict ((k, VDict ((k', x) :: m)) :: rest)) ctx w
     = (Raise TypeError, w)).
Proof.
  repeat split; intros; simpl;
    unfold List_coerce, List_coerce_items, Map_coerce, enumerate; simpl;
    unfold with_key;
    destruct (dict_get (context_or_empty ctx) "key") eqn:Hkey; reflexivity.
Qed.
End Keyed.

Lemma containers_reject_keyed_context_witness :
  let ctx := [("key", VStr "a"); ("parent", VNone)] in
  let contains := Integer None None VUndefined in
  (∀ x l, @coerce unit plain_externals (List contains "," VUndefined) (VList (x :: l))
            (Some ctx) () = (Raise TypeError, ())) ∧
  (∀ s, "," ≠ "" →
        @coerce unit plain_externals (List contains "," VUndefined) (VStr s) (Some ctx) ()
        = (Raise TypeError, ())) ∧
  (∀ k x d, @coerce unit plain_externals (List contains "," VUndefined)
              (VDict ((k, x) :: d)) (Some ctx) () = (Raise TypeError, ())) ∧
  (∀ k x d, @coerce unit plain_externals (Map contains VUndefined) (VDict ((k, x) :: d))
              (Some ctx) () = (Raise TypeError, ())).
Proof.
  intros ctx contains.
  apply (@containers_reject_keyed_context unit plain_externals contains "," VUndefined
           (VStr "a") ctx ()).
  reflexivity.
Defined.

(** ** Callables *)

Section Callables.
Context {W : Type} `{!Externals W}.

(** X8.  When [Callable.coerce] resolves a name, the dump of what it returns
    is that name, and coercing the returned callable again returns it
    unchanged without a lookup. *)
Theorem Callable_round_trip (dflt : value) (s : string) (v : value)
  (ctx : option context) (w w' : W) :
  coerce (Callable dflt) (VStr s) ctx w = (Ok v, w') →
  attr_dump (Callable dflt) v = Ok (VStr s) ∧
  ∀ ctx' w'', coerce (Callable dflt) v ctx' w'' = (Ok v, w'').
Proof.
  simpl. unfold Callable_coerce. msimpl.
  destruct (import_class s w) as [[caltype|e] w1]; [|discriminate].
  destruct caltype; try discriminate; intros [= <- <-]; by split.
Qed.
End Callables.

Lemma Callable_round_trip_witness :
  @attr_dump _ (logging_externals 0) (Callable VUndefined) (VClass Circle (Some "Circle"))
  = Ok (VStr "Circle") ∧
  ∀ ctx' w'', @coerce _ (logging_externals 0) (Callable VUndefined)
                (VClass Circle (Some "Circle")) ctx' w''
              = (Ok (VClass Circle (Some "Circle")), w'').
Proof.
  apply (@Callable_round_trip _ (logging_externals 0) VUndefined "Circle"
           (VClass Circle (Some "Circle")) None [] []).
  reflexivity.
Defined.

(** ** A coercion that fails ends the constructor *)

Section CoercionFailure.
Context {W : Type} `{!Externals W}.

Lemma foldM_app {S E : Type} (step : S → E → M W S) (l1 l2 : list E) (s : S) (w : W) :
  foldM step (l1 ++ l2) s w = (s' ← foldM step l1 s; foldM step l2 s') w.
Proof.
  revert s w. induction l1 as [|e l1 IH]; intros s w; simpl; [done|].
  unfold mbind, M_bind. destruct (step s e w) as [[s1|ex] w1]; [|done].
  apply IH.
Qed.

(** X9.  When the attributes before [aname] were processed and [coerce] of
    [aname], which is supplied, optional or an include, raises, the
    constructor raises the same exception in the same state of the
    collaborators: no later attribute is coerced and neither missing nor
    unsupported arguments are reported. *)
Theorem constructor_raises_coercion_failure (cls : klass) (kwargs : dict)
  (pre post : list (string * attr)) (aname : string) (afield : attr)
  (st : init_state) (e : exn) (w w1 w2 : W) :
  declared_attributes cls = pre ++ (aname, afield) :: post →
  foldM (fun st '(aname, afield) =>
           init_attribute cls kwargs aname afield (coerce afield) st)
    pre (init_start (declared_attributes cls) [] kwargs) w = (Ok st, w1) →
  (is_Include afield = false → dict_has kwargs aname = false → required afield = false) →
  coerce afield (field_input kwargs aname afield)
    (Some [("parent", VInstance cls (self_dict st))]) w1 = (Raise e, w2) →
  new cls kwargs w = (Raise e, w2).
Proof.
  intros Hattrs Hpre Hinput Hraise. unfold new. rewrite Attributee___init___loop.
  unfold init_loop, fmap, M_fmap. unfold mbind at 1, M_bind at 1.
  remember (init_start (declared_attributes cls) [] kwargs) as s0 eqn:Hs0.
  rewrite Hattrs, foldM_app.
  unfold mbind at 1, M_bind at 1. rewrite Hpre. simpl.
  unfold mbind at 1, M_bind at 1.
  assert (init_attribute cls kwargs aname afield (coerce afield) st w1 = (Raise e, w2)) as ->;
    [|done].
  unfold init_attribute, field_input, dict_has in *.
  destruct (is_Include afield).
  - unfold mbind, M_bind. by rewrite Hraise.
  - destruct (dict_get kwargs aname) as [v|].
    + unfold mbind, M_bind. by rewrite Hraise.
    + rewrite Hinput by done. simpl. unfold mbind, M_bind. by rewrite Hraise.
Qed.
End CoercionFailure.

Lemma constructor_raises_coercion_failure_witness :
  @new unit plain_externals Tags [("tags", VInt 3)] () = (Raise (UnableToConvert "list"), ()).
Proof.
  apply (@constructor_raises_coercion_failure unit plain_externals Tags [("tags", VInt 3)]
           [] [] "tags" (List (Attribute VUndefined) "," VUndefined)
           (init_start (declared_attributes Tags) [] [("tags", VInt 3)])
           (UnableToConvert "list") () () ()).
  - reflexivity.
  - reflexivity.
  - intros _ H. vm_compute in H. discriminate H.
  - reflexivity.
Defined.

(** ** Which base a name is inherited from *)

Lemma dict_get_update {V : Type} (d x : list (string * V)) (k : string) :
  NoDup (dict_keys x) →
  dict_get (dict_update d x) k
  = match dict_get x k with Some v => Some v | None => dict_get d k end.
Proof.
  intros Hnd. destruct (dict_get x k) as [v|] eqn:E.
  - by apply dict_get_update_in.
  - apply dict_get_update_notin. by apply dict_get_None_keys.
Qed.



(** ** A redeclaration that the merge loses *)

Lemma get_fields_lookup (attrs : list (string * member)) (k : string) :
  NoDup (dict_keys attrs) →
  dict_get (_get_fields attrs) k
  = match dict_get attrs k with Some (Descriptor f) => Some f | _ => None end.
Proof.
  induction attrs as [|[k0 m] attrs IH]; intros Hnd; simpl; [done|].
  change (dict_keys ((k0, m) :: attrs)) with (k0 :: dict_keys attrs) in Hnd.
  apply NoDup_cons in Hnd as [Hk0 Hnd].
  destruct m as [f|]; simpl.
  - destruct (String.eqb k0 k); [done|by apply IH].
  - destruct (String.eqb k0 k) eqn:E; [|by apply IH].
    apply String.eqb_eq in E. subst k0. apply dict_get_None_keys.
    intros Hin. apply Hk0. by apply get_fields_keys.
Qed.

Lemma elem_of_dict_get {V : Type} (d : list (string * V)) (k : string) (v : V) :
  NoDup (dict_keys d) → (k, v) ∈ d → dict_get d k = Some v.
Proof.
  intros Hnd Hin. destruct (dict_get d k) as [v'|] eqn:E.
  - f_equal. apply dict_get_elem_of in E. by eapply NoDup_keys_functional.
  - apply dict_get_None_keys in E. exfalso. apply E.
    unfold dict_keys. apply list_elem_of_fmap. by exists (k, v).
Qed.

(** What a new class holds under a name: the descriptor of its body, else
    that of the first class of the method resolution order whose merged
    attributes hold the name. *)
Lemma new_class_lookup (mro_tail : list pyclass) (name : string)
  (attrs : list (string * member)) (k : string) :
  Forall (fun base => NoDup (dict_keys (base_fields base))) mro_tail →
  NoDup (dict_keys attrs) →
  dict_get (py_declared (AttributeeMeta___new__ name mro_tail attrs)) k
  = match dict_get attrs k with
    | Some (Descriptor f) => Some f
    | _ => head (omap (fun base => dict_get (base_fields base) k) mro_tail)
    end.
Proof.
  intros Hbases Hnd.
  assert (dict_get (dict_of (_get_fields_by_mro mro_tail)) k
          = head (omap (fun base => dict_get (base_fields base) k) mro_tail)) as Hinh.
  { induction Hbases as [|c mro Hc Hbases IH]; [done|].
    rewrite get_fields_by_mro_cons. unfold dict_of. rewrite dict_update_app.
    rewrite dict_get_update by done. simpl.
    destruct (dict_get (base_fields c) k); [done|]. exact IH. }
  simpl. unfold dict_of. rewrite dict_update_app.
  rewrite dict_get_update by by apply get_fields_NoDup.
  rewrite get_fields_lookup by done. fold (dict_of (_get_fields_by_mro mro_tail)).
  rewrite Hinh. by destruct (dict_get attrs k) as [[f|]|].
Qed.

Lemma new_class_base_fields (mro_tail : list pyclass) (name : string)
  (attrs : list (string * member)) :
  base_fields (AttributeeMeta___new__ name mro_tail attrs)
  = py_declared (AttributeeMeta___new__ name mro_tail attrs)
  ∧ NoDup (dict_keys (base_fields (AttributeeMeta___new__ name mro_tail attrs))).
Proof.
  assert (base_fields (AttributeeMeta___new__ name mro_tail attrs)
          = py_declared (AttributeeMeta___new__ name mro_tail attrs)) as Heq.
  { simpl. apply get_fields_descriptors. }
  split; [done|]. rewrite Heq. simpl. apply dict_of_NoDup.
Qed.

Lemma head_omap_found {A B : Type} (f : A → option B) (x : A) (l : list A) (y : B) :
  f x = Some y → head (omap f (x :: l)) = Some y.
Proof. intros H. simpl. by rewrite H. Qed.

(** C4.  A diamond: [Base] declares the name [k], of its two subclasses
    [Left] leaves it alone and [Right] declares it again, and [Bottom]
    derives from [Left] and [Right], in this order, without declaring it.
    The method resolution order of [Bottom] is [Bottom, Left, Right, Base,
    Attributee, object], and the bodies of the classes are arbitrary
    otherwise.  [Right] holds its own descriptor under [k], but [Bottom]
    holds the one of [Base]: the redeclaration by [Right], which comes
    before [Base] in the method resolution order, is lost, because the
    merged attributes of [Left], which carry the descriptor of [Base], are
    merged last. *)
Theorem redeclaration_lost_in_diamond (base_body left_body right_body bottom_body
  : list (string * member)) (k : string) (f0 f1 : attr) :
  NoDup (dict_keys base_body) → NoDup (dict_keys left_body) →
  NoDup (dict_keys right_body) → NoDup (dict_keys bottom_body) →
  (k, Descriptor f0) ∈ base_body →
  (∀ f, (k, Descriptor f) ∉ left_body) →
  (k, Descriptor f1) ∈ right_body →
  (∀ f, (k, Descriptor f) ∉ bottom_body) →
  let Attributee := AttributeeMeta___new__ "Attributee" [object_class] Attributee_body in
  let Base := AttributeeMeta___new__ "Base" [Attributee; object_class] base_body in
  let Left := AttributeeMeta___new__ "Left" [Base; Attributee; object_class] left_body in
  let Right := AttributeeMeta___new__ "Right" [Base; Attributee; object_class] right_body in
  let Bottom :=
    AttributeeMeta___new__ "Bottom" [Left; Right; Base; Attributee; object_class]
      bottom_body in
  dict_get (py_declared Base) k = Some f0 ∧
  dict_get (py_declared Left) k = Some f0 ∧
  dict_get (py_declared Right) k = Some f1 ∧
  dict_get (py_declared Bottom) k = Some f0.
Proof.
  intros Hbase Hleft Hright Hbottom Hk0 Hkl Hk1 Hkb Attributee Base Left Right Bottom.
  assert (∀ body, NoDup (dict_keys body) → (∀ f, (k, Descriptor f) ∉ body) →
                  ∀ inherited : option attr,
                    match dict_get body k with
                    | Some (Descriptor f) => Some f
                    | _ => inherited
                    end = inherited) as Hnone.
  { intros body Hnd Hno inherited. destruct (dict_get body k) as [[f|]|] eqn:E; try done.
    apply dict_get_elem_of in E. by apply Hno in E. }
  assert (NoDup (dict_keys (base_fields object_class))) as Hobject
    by apply NoDup_nil_2.
  destruct (new_class_base_fields [object_class] "Attributee" Attributee_body)
    as [_ HA].
  destruct (new_class_base_fields [Attributee; object_class] "Base" base_body)
    as [HBeq HB].
  destruct (new_class_base_fields [Base; Attributee; object_class] "Left" left_body)
    as [HLeq HL].
  destruct (new_class_base_fields [Base; Attributee; object_class] "Right" right_body)
    as [HReq HR].
  fold Attributee in HA. fold Base in HBeq, HB. fold Left in HLeq, HL.
  fold Right in HReq, HR.
  assert (dict_get (py_declared Base) k = Some f0) as HkB.
  { unfold Base. rewrite new_class_lookup; [|by repeat constructor|done].
    by rewrite (elem_of_dict_get _ _ _ Hbase Hk0). }
  assert (dict_get (py_declared Left) k = Some f0) as HkL.
  { unfold Left. rewrite new_class_lookup; [|by repeat constructor|done].
    rewrite Hnone by done. apply head_omap_found. by rewrite HBeq. }
  assert (dict_get (py_declared Right) k = Some f1) as HkR.
  { unfold Right. rewrite new_class_lookup; [|by repeat constructor|done].
    by rewrite (elem_of_dict_get _ _ _ Hright Hk1). }
  split; [done|]. split; [done|]. split; [done|].
  unfold Bottom. rewrite new_class_lookup; [|by repeat constructor|done].
  rewrite Hnone by done. apply head_omap_found. by rewrite HLeq.
Qed.

Lemma redeclaration_lost_in_diamond_witness :
  let Attributee := AttributeeMeta___new__ "Attributee" [object_class] Attributee_body in
  let Base :=
    AttributeeMeta___new__ "Base" [Attributee; object_class]
      [("x", Descriptor (Integer None None VUndefined))] in
  let Left :=
    AttributeeMeta___new__ "Left" [Base; Attributee; object_class]
      [("y", Descriptor (Boolean VUndefined))] in
  let Right :=
    AttributeeMeta___new__ "Right" [Base; Attributee; object_class]
      [("x", Descriptor (String VUndefined))] in
  let Bottom :=
    AttributeeMeta___new__ "Bottom" [Left; Right; Base; Attributee; object_class] [] in
  dict_get (py_declared Base) "x" = Some (Integer None None VUndefined) ∧
  dict_get (py_declared Left) "x" = Some (Integer None None VUndefined) ∧
  dict_get (py_declared Right) "x" = Some (String VUndefined) ∧
  dict_get (py_declared Bottom) "x" = Some (Integer None None VUndefined).
Proof.
  assert (∀ body : list (string * member),
            bool_decide (NoDup (dict_keys body)) = true → NoDup (dict_keys body)) as Hnd.
  { intros body H. by apply bool_decide_eq_true in H. }
  apply (redeclaration_lost_in_diamond
           [("x", Descriptor (Integer None None VUndefined))]
           [("y", Descriptor (Boolean VUndefined))]
           [("x", Descriptor (String VUndefined))]
           [] "x" (Integer None None VUndefined) (String VUndefined)).
  - apply Hnd. vm_compute. reflexivity.
  - apply Hnd. vm_compute. reflexivity.
  - apply Hnd. vm_compute. reflexivity.
  - apply Hnd. vm_compute. reflexivity.
  - apply list_elem_of_here.
  - intros f H. apply list_elem_of_singleton in H. discriminate H.
  - apply list_elem_of_here.
  - intros f H. by apply elem_of_nil in H.
Defined.

(** ** Descriptors leave the class namespace *)

Lemma dict_del_filter {V : Type} (d : list (string * V)) (k : string) :
  NoDup (dict_keys d) →
  dict_del d k = List.filter (fun kv => negb (String.eqb kv.1 k)) d.
Proof.
  induction d as [|[k0 v0] d IH]; intros Hnd; simpl; [done|].
  change (dict_keys ((k0, v0) :: d)) with (k0 :: dict_keys d) in Hnd.
  apply NoDup_cons in Hnd as [Hk0 Hnd].
  destruct (String.eqb k0 k) eqn:E; simpl.
  - apply String.eqb_eq in E. subst k0.
    symmetry. rewrite <- (List.filter_ext_in (fun _ => true)).
    + clear. induction d as [|a d IH]; simpl; [done|]. by rewrite IH.
    + intros [k' v'] Hin. simpl. symmetry. apply negb_true_iff. apply String.eqb_neq.
      intros ->. apply Hk0. unfold dict_keys. apply list_elem_of_fmap.
      exists (k, v'). split; [done|]. by apply list_elem_of_In.
  - by rewrite IH.
Qed.

Lemma dict_del_NoDup {V : Type} (d : list (string * V)) (k : string) :
  NoDup (dict_keys d) → NoDup (dict_keys (dict_del d k)).
Proof.
  intros Hnd. rewrite dict_del_filter by done.
  unfold dict_keys in *. clear -Hnd. induction d as [|[k0 v0] d IH]; simpl; [done|].
  rewrite fmap_cons in Hnd. apply NoDup_cons in Hnd as [Hk0 Hnd].
  destruct (negb (String.eqb k0 k)); simpl; [|by apply IH].
  apply NoDup_cons. split; [|by apply IH].
  intros Hin. apply Hk0. apply list_elem_of_fmap in Hin as [[k' v'] [-> Hin]].
  apply list_elem_of_In, List.filter_In in Hin as [Hin _].
  apply list_elem_of_fmap. exists (k', v'). split; [done|]. by apply list_elem_of_In.
Qed.

Lemma fold_dict_del {V F : Type} (fs : list (string * F)) (d : list (string * V)) :
  NoDup (dict_keys d) →
  fold_left (fun d' '(field_name, _) => dict_del d' field_name) fs d
  = List.filter (fun kv => negb (dict_has fs kv.1)) d.
Proof.
  revert d. induction fs as [|[k f] fs IH]; intros d Hnd; simpl.
  - clear. unfold dict_has. simpl. induction d as [|a d IH]; simpl; [done|by f_equal].
  - rewrite IH by by apply dict_del_NoDup. rewrite dict_del_filter by done.
    clear. induction d as [|[k0 v0] d IH]; simpl; [done|].
    unfold dict_has at 2. simpl.
    destruct (String.eqb k0 k) eqn:E; simpl.
    + apply String.eqb_eq in E. subst k0. rewrite String.eqb_refl. simpl. exact IH.
    + rewrite String.eqb_sym, E. fold (dict_has fs k0).
      destruct (negb (dict_has fs k0)); simpl; by rewrite IH.
Qed.

(** X11.  After the metaclass has taken the descriptors out of the body of a
    class statement, the class namespace holds the other members only, in
    their order, and no descriptor is left in it. *)
Theorem pop_fields_keeps_others (attrs : list (string * member)) :
  NoDup (dict_keys attrs) →
  _pop_fields attrs
  = List.filter (fun kv => match kv.2 with Plain => true | Descriptor _ => false end) attrs ∧
  _get_fields (_pop_fields attrs) = [] ∧
  ∀ k, dict_get (_pop_fields attrs) k
       = match dict_get attrs k with Some Plain => Some Plain | _ => None end.
Proof.
  intros Hnd.
  assert (_pop_fields attrs
          = List.filter (fun kv => match kv.2 with Plain => true | Descriptor _ => false end)
              attrs) as Hpop.
  { unfold _pop_fields. rewrite fold_dict_del by done.
    apply List.filter_ext_in. intros [k m] Hin. simpl. unfold dict_has.
    rewrite get_fields_lookup by done.
    assert (dict_get attrs k = Some m) as ->.
    { clear -Hnd Hin. induction attrs as [|[k0 m0] attrs IH]; [done|].
      change (dict_keys ((k0, m0) :: attrs)) with (k0 :: dict_keys attrs) in Hnd.
      apply NoDup_cons in Hnd as [Hk0 Hnd]. simpl.
      destruct Hin as [[= -> ->]|Hin]; [by rewrite String.eqb_refl|].
      destruct (String.eqb k0 k) eqn:E; [|by apply IH].
      apply String.eqb_eq in E. subst k0. exfalso. apply Hk0.
      unfold dict_keys. apply list_elem_of_fmap. exists (k, m).
      split; [done|]. by apply list_elem_of_In. }
    by destruct m. }
  rewrite Hpop. split; [done|]. split.
  - clear. induction attrs as [|[k [f|]] attrs IH]; simpl; done.
  - intros k. clear Hpop. induction attrs as [|[k0 m0] attrs IH]; [done|].
    change (dict_keys ((k0, m0) :: attrs)) with (k0 :: dict_keys attrs) in Hnd.
    apply NoDup_cons in Hnd as [Hk0 Hnd]. specialize (IH Hnd). simpl.
    destruct m0 as [f|]; simpl.
    + destruct (String.eqb k0 k) eqn:E; [|done].
      apply String.eqb_eq in E. subst k0. rewrite IH.
      assert (dict_get attrs k = None) as -> by by apply dict_get_None_keys. done.
    + by destruct (String.eqb k0 k).
Qed.

Lemma pop_fields_keeps_others_witness :
  _pop_fields Shape_body
  = List.filter (fun kv => match kv.2 with Plain => true | Descriptor _ => false end)
      Shape_body ∧
  _get_fields (_pop_fields Shape_body) = [] ∧
  ∀ k, dict_get (_pop_fields Shape_body) k
       = match dict_get Shape_body k with Some Plain => Some Plain | _ => None end.
Proof.
  apply (pop_fields_keeps_others Shape_body).
  apply (bool_decide_unpack (NoDup (dict_keys Shape_body))). vm_compute. exact I.
Defined.

(** ** Round trips through containers and nested classes *)

Section ContainerRoundTrips.
Context {W : Type} `{!Externals W}.

Lemma mapM_fixed (elem : value → option context → M W value) (ctx : context)
  (l : list value) (f : nat → nat) (w : W) :
  Forall (fun x => ∀ ctx' w', elem x ctx' w' = (Ok x, w')) l →
  mapM (fun '(i, x) => elem x (Some (("key", VInt (Z.of_nat i)) :: ctx)))
    (imap (fun i x => (f i, x)) l) w = (Ok l, w).
Proof.
  intros Hall. revert f. induction Hall as [|x l Hx Hall IH]; intros f; [done|].
  simpl. unfold mbind, M_bind. rewrite Hx.
  change (imap ((fun i x => (f i, x)) ∘ S) l) with (imap (fun i x => (f (S i), x)) l).
  by rewrite (IH (fun i => f (S i))).
Qed.

Lemma mapR_fixed (dump : value → result value) (l : list value) :
  Forall (fun x => dump x = Ok x) l → mapR dump l = Ok l.
Proof.
  induction 1 as [|x l Hx Hall IH]; [done|]. simpl. by rewrite Hx, IH.
Qed.

(** X12.  A list of values that the element descriptor coerces and dumps
    unchanged is itself coerced and dumped unchanged by [List], in every
    context without a ["key"] entry, the one of a constructor among them:
    a list field given as a list of such values round-trips. *)
Theorem List_round_trip (contains : attr) (separator : string) (dflt : value)
  (l : list value) (ctx : option context) (w : W) :
  dict_get (context_or_empty ctx) "key" = None →
  Forall (fun x => (∀ ctx' w', coerce contains x ctx' w' = (Ok x, w'))
                   ∧ attr_dump contains x = Ok x) l →
  coerce (List contains separator dflt) (VList l) ctx w = (Ok (VList l), w) ∧
  attr_dump (List contains separator dflt) (VList l) = Ok (VList l) ∧
  fixed_point (List contains separator dflt) (VList l).
Proof.
  intros Hkey Hall.
  assert (∀ ctx0 w0, dict_get (context_or_empty ctx0) "key" = None →
                     coerce (List contains separator dflt) (VList l) ctx0 w0
                     = (Ok (VList l), w0)) as Hcoerce.
  { intros ctx0 w0 Hkey0. simpl. unfold List_coerce.
    rewrite List_coerce_items_positions by done.
    unfold fmap, M_fmap, enumerate.
    rewrite (mapM_fixed (coerce contains) (context_or_empty ctx0) l (fun i => i)); [done|].
    eapply Forall_impl; [exact Hall|]. by intros x [Hx _]. }
  assert (attr_dump (List contains separator dflt) (VList l) = Ok (VList l)) as Hdump.
  { simpl. rewrite mapR_fixed; [done|].
    eapply Forall_impl; [exact Hall|]. by intros x [_ Hx]. }
  split; [by apply Hcoerce|]. split; [done|]. split; [|done].
  intros parent w0. by apply Hcoerce.
Qed.

Lemma coerced_fixed_inputs (cls : klass) (kwargs : dict) (l : list (string * attr))
  (xs : list value) :
  Forall (fun field => is_Include field.2 = false
                       ∧ fixed_point field.2 (field_input kwargs field.1 field.2)) l →
  Forall2 (coerced_from cls kwargs) l xs →
  Forall2 (fun field x => is_Include field.2 = false
                          ∧ x = field_input kwargs field.1 field.2
                          ∧ attr_dump field.2 x = Ok x) l xs.
Proof.
  intros Hfix Hxs. induction Hxs as [|[aname afield] x l xs Hx Hall IH]; [constructor|].
  apply Forall_cons in Hfix as [[Hi [Hc Hd]] Hfix]. simpl in Hi, Hc, Hd.
  destruct Hx as (self & w1 & w2 & Hx). simpl in Hx. rewrite Hc in Hx.
  injection Hx as <- _. constructor; [done|]. by apply IH.
Qed.

(** X13.  Round trip through a nested field.  When the nested class has no
    include and the input of each of its attributes is a value that its
    descriptor coerces and dumps unchanged, [Nested.dump] of what
    [Nested.coerce] built from a mapping is that mapping with the defaults of
    the nested class made explicit, in the order of declaration. *)
Theorem Nested_round_trip (acls : klass) (r : bool) (dflt : value) (kwargs : dict)
  (x : value) (ctx : option context) (w w' : W) :
  NoDup (dict_keys (declared_attributes acls)) →
  Forall (fun field => is_Include field.2 = false
                       ∧ fixed_point field.2 (field_input kwargs field.1 field.2))
    (declared_attributes acls) →
  coerce (Nested acls r dflt) (VDict kwargs) ctx w = (Ok x, w') →
  attr_dump (Nested acls r dflt) x = Ok (VDict (materialized acls kwargs)).
Proof.
  intros Hnd Hfix Hcoerce.
  assert (new acls kwargs w = (Ok x, w')) as Hnew by exact Hcoerce.
  destruct (new_Ok_entries _ _ _ _ _ Hnd Hnew) as (xs & -> & Hxs).
  destruct acls as [n attributes]. simpl in *.
  unfold dump_attributes. rewrite (dump_attributes_entries _ xs).
  - rewrite (dump_entries_fixed kwargs); [done| |done].
    by eapply coerced_fixed_inputs.
  - apply (dict_get_zip_keys attributes xs []); [by eapply Forall2_length|done].
Qed.

(** X14.  A [Map] of [Object], as a class uses it for a field of
    polymorphic entries: in a context without ["key"], each entry of the
    mapping, in order, is resolved by one call of the resolver on the
    ["type"] of the entry (or [None]), the context extended by the key of the
    entry under ["key"], and the other items of the entry; an entry that is
    not a dict raises [AssertionError]. *)
Theorem Map_of_Object_contexts (resolver : string) (dflt dflt' : value) (d : dict)
  (ctx : option context) (w : W) :
  dict_get (context_or_empty ctx) "key" = None →
  NoDup (dict_keys d) →
  coerce (Map (Object resolver dflt) dflt') (VDict d) ctx w
  = (VReadonlyMapping <$>
       mapM (fun '(name, data) =>
               match data with
               | VDict e =>
                   x ← resolvers resolver
                         (match dict_get e "type" with Some t => t | None => VNone end)
                         (Some (("key", VStr name) :: context_or_empty ctx))
                         (List.filter (fun kv => negb (String.eqb kv.1 "type")) e);
                   mret (name, x)
               | _ => raise AssertionError
               end) d) w.
Proof.
  intros Hkey Hnd.
  change (coerce (Map (Object resolver dflt) dflt') (VDict d) ctx w)
    with ((VReadonlyMapping <$>
             foldM (fun container '(name, data) =>
                      elem' ← get_slot "_contains" (Some (coerce (Object resolver dflt)));
                      ctx' ← with_key (VStr name) (context_or_empty ctx);
                      x ← elem' data (Some ctx');
                      mret (dict_set container name x)) d []) w).
  unfold fmap at 1, M_fmap at 1. rewrite Map_coerce_loop by done.
  unfold fmap, M_fmap.
  rewrite (mapM_ext _
             (fun '(name, data) =>
                match data with
                | VDict e =>
                    x ← resolvers resolver
                          (match dict_get e "type" with Some t => t | None => VNone end)
                          (Some (("key", VStr name) :: context_or_empty ctx))
                          (List.filter (fun kv => negb (String.eqb kv.1 "type")) e);
                    mret (name, x)
                | _ => raise AssertionError
                end)).
  - by destruct (mapM _ d w) as [[ys|e] w1].
  - intros [name data] w0 _. simpl. unfold Object_coerce.
    destruct data; reflexivity.
Qed.
End ContainerRoundTrips.

Lemma List_round_trip_witness :
  let l := [VInt 1; VInt 2] in
  let ctx := Some [("parent", VNone)] in
  @coerce unit plain_externals (List (Integer None None VUndefined) "," VUndefined)
    (VList l) ctx () = (Ok (VList l), ()) ∧
  @attr_dump unit plain_externals (List (Integer None None VUndefined) "," VUndefined)
    (VList l) = Ok (VList l) ∧
  @fixed_point unit plain_externals (List (Integer None None VUndefined) "," VUndefined)
    (VList l).
Proof.
  intros l ctx.
  apply (@List_round_trip unit plain_externals (Integer None None VUndefined) ","
           VUndefined l ctx ()).
  - reflexivity.
  - repeat apply Forall_cons_2; try apply Forall_nil_2; split; reflexivity.
Defined.

Lemma Nested_round_trip_witness :
  @attr_dump unit plain_externals (Nested Point true VUndefined)
    (VInstance Point [("x", VInt 5); ("y", VInt 0)])
  = Ok (VDict (materialized Point [("x", VInt 5)])).
Proof.
  apply (@Nested_round_trip unit plain_externals Point true VUndefined [("x", VInt 5)]
           (VInstance Point [("x", VInt 5); ("y", VInt 0)]) None () ()).
  - apply (bool_decide_unpack (NoDup (dict_keys (declared_attributes Point)))).
    vm_compute. exact I.
  - repeat apply Forall_cons_2; try apply Forall_nil_2; repeat split; reflexivity.
  - reflexivity.
Defined.

Lemma Map_of_Object_contexts_witness :
  let d := [("baseline", VDict [("type", VStr "Circle"); ("radius", VStr "5")])] in
  let ctx := Some [("parent", VNone)] in
  @coerce _ (logging_externals 1) (Map (Object "experiment_resolver" VUndefined) VUndefined)
    (VDict d) ctx []
  = (VReadonlyMapping <$>
       mapM (fun '(name, data) =>
               match data with
               | VDict e =>
                   x ← @resolvers _ (logging_externals 1) "experiment_resolver"
                         (match dict_get e "type" with Some t => t | None => VNone end)
                         (Some (("key", VStr name) :: context_or_empty ctx))
                         (List.filter (fun kv => negb (String.eqb kv.1 "type")) e);
                   mret (name, x)
               | _ => raise AssertionError
               end) d) [].
Proof.
  intros d ctx.
  apply (@Map_of_Object_contexts _ (logging_externals 1) "experiment_resolver"
           VUndefined VUndefined d ctx []).
  - reflexivity.
  - apply (bool_decide_unpack (NoDup (dict_keys d))). vm_compute. exact I.
Defined.

(** ** Finding a stack file *)

Lemma resolve_in_Some (isfile : string → bool) (name : string) (directories : list string)
  (p : string) :
  resolve_in isfile name directories = Some p →
  isfile p = true ∧ ∃ d, d ∈ directories ∧ p = path_join d [name].
Proof.
  induction directories as [|d rest IH]; simpl; [done|].
  destruct (isfile (join_segment d name)) eqn:E.
  - intros [= <-]. split; [done|]. exists d. split; [apply list_elem_of_here|done].
  - intros [Hp (d' & Hd' & ->)]%IH. split; [done|].
    exists d'. split; [by apply list_elem_of_further|done].
Qed.

Lemma resolve_in_None (isfile : string → bool) (name : string) (directories : list string) :
  resolve_in isfile name directories = None
  ↔ Forall (fun d => isfile (path_join d [name]) = false) directories.
Proof.
  induction directories as [|d rest IH]; simpl; [by split; [constructor|]|].
  rewrite Forall_cons. simpl.
  destruct (isfile (join_segment d name)); [|by rewrite IH; tauto].
  split; [done|]. by intros [? _].
Qed.

Lemma resolve_in_first (isfile : string → bool) (name : string)
  (pre post : list string) (d : string) :
  Forall (fun d' => isfile (path_join d' [name]) = false) pre →
  isfile (path_join d [name]) = true →
  resolve_in isfile name (pre ++ d :: post) = Some (path_join d [name]).
Proof.
  intros Hpre Hd. induction Hpre as [|d' pre Hd' Hpre IH]; simpl in *.
  - by rewrite Hd.
  - by rewrite Hd'.
Qed.

(** X15.  [resolve_stack] returns only files that exist.  For an absolute
    name it is the name itself, if and only if it is a file, and no
    directory is looked at.  For a relative name it is the name joined to the
    first of the directories, in their order, where that is a file; only
    when there is none, the integrated stack [name.yaml] of the package, if
    that is a file; and [None] exactly when none of these is a file. *)
Theorem resolve_stack_first_existing (isfile : string → bool) (package_dir name : string)
  (directories : list string) :
  let integrated := path_join package_dir [String.append name ".yaml"] in
  (∀ p, resolve_stack isfile package_dir name directories = Some p →
        isfile p = true ∧
        if isabs name then p = name
        else (∃ d, d ∈ directories ∧ p = path_join d [name]) ∨ p = integrated) ∧
  (resolve_stack isfile package_dir name directories = None
   ↔ if isabs name then isfile name = false
     else Forall (fun d => isfile (path_join d [name]) = false) directories
          ∧ isfile integrated = false) ∧
  (∀ pre d post,
     isabs name = false → directories = pre ++ d :: post →
     Forall (fun d' => isfile (path_join d' [name]) = false) pre →
     isfile (path_join d [name]) = true →
     resolve_stack isfile package_dir name directories = Some (path_join d [name])) ∧
  (isabs name = false →
   Forall (fun d => isfile (path_join d [name]) = false) directories →
   isfile integrated = true →
   resolve_stack isfile package_dir name directories = Some integrated).
Proof.
  intros integrated. unfold resolve_stack. fold integrated.
  split; [|split; [|split]].
  - intros p. destruct (isabs name).
    + destruct (isfile name) eqn:E; [|done]. by intros [= <-].
    + destruct (resolve_in isfile name directories) as [full|] eqn:Hin.
      * intros [= <-]. apply resolve_in_Some in Hin as [Hp Hd]. split; [done|by left].
      * destruct (isfile integrated) eqn:E; [|done]. intros [= <-]. split; [done|by right].
  - destruct (isabs name).
    + by destruct (isfile name).
    + rewrite <- resolve_in_None.
      destruct (resolve_in isfile name directories) as [full|].
      * split; [done|]. by intros [? _].
      * destruct (isfile integrated); split; try done. by intros [_ ?].
  - intros pre d post -> -> Hpre Hd. by rewrite resolve_in_first.
  - intros -> Hnone Hint. apply resolve_in_None in Hnone. by rewrite Hnone, Hint.
Qed.

(** ** Local storage *)

Lemma prefix_slash_append (a b : string) :
  a ≠ "" → String.prefix "/" (String.append a b) = String.prefix "/" a.
Proof.
  destruct a as [|c a]; [done|]. intros _.
  change (String.append (String.String c a) b) with (String.String c (String.append a b)).
  cbn [String.prefix].
  destruct (ascii_dec "/" c); [|done]. by destruct (String.append a b), a.
Qed.

Lemma prefix_append (a b : string) : String.prefix a (String.append a b) = true.
Proof.
  induction a as [|c a IH]; [by destruct b|].
  change (String.append (String.String c a) b) with (String.String c (String.append a b)).
  cbn [String.prefix]. destruct (ascii_dec c c); [exact IH|done].
Qed.

Lemma length_append (a b : string) :
  String.length (String.append a b) = (String.length a + String.length b)%nat.
Proof.
  induction a as [|c a IH]; [done|].
  change (String.append (String.String c a) b) with (String.String c (String.append a b)).
  simpl. by rewrite IH.
Qed.

(** Joining a relative segment appends it, after a slash or not. *)
Lemma join_segment_relative (path b : string) :
  isabs b = false →
  join_segment path b = String.append path b
  ∨ join_segment path b = String.append path (String.append "/" b).
Proof.
  unfold join_segment, isabs. intros ->.
  destruct (match path with EmptyString => true | _ => ends_with_slash path end); auto.
Qed.

Lemma has_slash_append (a b : string) :
  has_slash (String.append a b) = has_slash a || has_slash b.
Proof.
  induction a as [|c a IH]; [done|].
  change (String.append (String.String c a) b) with (String.String c (String.append a b)).
  cbn [has_slash]. by rewrite IH, orb_assoc.
Qed.

Lemma ends_with_slash_has_slash (s : string) :
  ends_with_slash s = true → has_slash s = true.
Proof.
  induction s as [|c s IH]; [done|]. cbn [ends_with_slash has_slash].
  destruct s as [|c' s'].
  - intros ->. done.
  - intros H. rewrite (IH H). apply orb_true_r.
Qed.

Lemma head_to_last_slash_empty (p : string) :
  head_to_last_slash p = "" ↔ has_slash p = false.
Proof.
  destruct p as [|c p]; [done|]. cbn [head_to_last_slash has_slash].
  destruct (has_slash p); [by rewrite orb_true_r|].
  rewrite orb_false_r. by destruct (Ascii.eqb c "/").
Qed.

Lemma rstrip_slash_nonempty (s : string) :
  all_slashes s = false → rstrip_slash s ≠ "".
Proof.
  destruct s as [|c s]; [done|]. cbn [all_slashes rstrip_slash]. by intros ->.
Qed.

(** The directory of a path is empty exactly when the path has no slash. *)
Lemma dirname_empty (p : string) : dirname p = "" ↔ has_slash p = false.
Proof.
  rewrite <- head_to_last_slash_empty. unfold dirname.
  destruct (head_to_last_slash p) as [|c h] eqn:Hhead; [done|].
  replace (String.eqb (String.String c h) "") with false
    by (symmetry; by apply String.eqb_neq).
  simpl negb at 1. rewrite andb_true_l.
  destruct (all_slashes (String.String c h)) eqn:Hall; simpl negb; cbv iota.
  - done.
  - split; [|done]. intros H. by apply rstrip_slash_nonempty in H.
Qed.

(** A path joined to a base has no directory only when the base is empty
    and the path is a bare name. *)
Lemma dirname_join_empty (base path : string) :
  isabs path = false →
  dirname (path_join base [path]) = "" ↔ base = "" ∧ has_slash path = false.
Proof.
  intros Hrel. rewrite dirname_empty.
  change (path_join base [path]) with (join_segment base path).
  unfold join_segment. unfold isabs in Hrel. rewrite Hrel.
  destruct base as [|c base].
  - change (String.append "" path) with path. split; [done|]. by intros [_ ?].
  - destruct (ends_with_slash (String.String c base)) eqn:Hend.
    + rewrite has_slash_append, (ends_with_slash_has_slash _ Hend). simpl.
      split; [done|]. by intros [? _].
    + rewrite !has_slash_append.
      replace (has_slash "/") with true by reflexivity.
      rewrite orb_true_l, orb_true_r. split; [done|]. by intros [? _].
Qed.

(** X16.  [LocalStorage.copy] refuses an absolute destination before it
    calls the operating system.  For a relative one it first creates the
    directory of [base/destination]; when that call raises, the file is not
    moved, which is what happens on every file system when [base] is empty
    and the destination is a bare name, since the directory is then the
    empty path.  When the call returns, the file is moved to [base] joined
    with [base/destination]: that is [base/destination] when [base] is
    absolute or empty, and for any other [base] a longer path, under [base]
    twice, whose directory was not created. *)
Theorem LocalStorage_copy_target (os : os_model) (base localfile destination : string) :
  let full := path_join base [destination] in
  (isabs destination = true →
   LocalStorage_copy os base localfile destination = IOError "Only relative paths allowed") ∧
  (isabs destination = false →
   ∃ target,
     LocalStorage_copy os base localfile destination
     = match os_call os [] (FsMakedirs (dirname full)) with
       | Some e => CallRaised [FsMakedirs (dirname full)] e
       | None =>
           match os [FsMakedirs (dirname full)] (FsMove localfile target) with
           | Some e => CallRaised [FsMakedirs (dirname full); FsMove localfile target] e
           | None => Calls [FsMakedirs (dirname full); FsMove localfile target]
           end
       end ∧
     (base = "" ∧ has_slash destination = false →
      LocalStorage_copy os base localfile destination
      = CallRaised [FsMakedirs ""] "FileNotFoundError") ∧
     (isabs base = true ∨ base = "" → target = full) ∧
     (isabs base = false → base ≠ "" →
      (String.length full < String.length target)%nat ∧
      String.prefix base target = true ∧ target ≠ full)).
Proof.
  intros full. unfold LocalStorage_copy. fold full. split.
  - by intros ->.
  - intros Hdest. rewrite Hdest. exists (path_join base [full]).
    split; [reflexivity|]. split.
    { intros Hbare. apply (dirname_join_empty base destination Hdest) in Hbare.
      fold full in Hbare. rewrite Hbare. reflexivity. }
    assert (base ≠ "" → isabs full = isabs base) as Habs.
    { intros Hbase. unfold full, isabs. simpl.
      destruct (join_segment_relative base destination Hdest) as [-> | ->];
        by apply prefix_slash_append. }
    split.
    + intros [Hbase | ->].
      * assert (isabs full = true) as Hfull.
        { rewrite Habs; [done|]. intros ->. done. }
        change (path_join base [full]) with (join_segment base full).
        unfold join_segment. fold (isabs full). by rewrite Hfull.
      * change (path_join "" [full]) with (join_segment "" full).
        unfold join_segment. by destruct (String.prefix "/" full).
    + intros Hrel Hbase.
      assert (isabs full = false) as Hfull by by rewrite Habs.
      assert ((String.length full < String.length (path_join base [full]))%nat
              ∧ String.prefix base (path_join base [full]) = true) as [Hlen Hpre].
      { simpl. destruct (join_segment_relative base full Hfull) as [-> | ->].
        - rewrite length_append, prefix_append. split; [|done].
          destruct base; [done|]. simpl. lia.
        - rewrite !length_append, prefix_append. split; [|done]. simpl. lia. }
      split; [done|]. split; [done|]. intros Heq. rewrite Heq in Hlen. lia.
Qed.


(** With the base ["ws"] the file is moved under ["ws/ws"], with ["/ws"]
    under ["/ws"], and with an empty base and a bare name nothing is moved,
    on an operating system that lets every call return that can. *)
Example LocalStorage_copy_relative_base :
  let os : os_model := fun _ _ => None in
  LocalStorage_copy os "ws" "/tmp/result.zip" "results/a.zip"
  = Calls [FsMakedirs "ws/results"; FsMove "/tmp/result.zip" "ws/ws/results/a.zip"] ∧
  LocalStorage_copy os "/ws" "/tmp/result.zip" "results/a.zip"
  = Calls [FsMakedirs "/ws/results"; FsMove "/tmp/result.zip" "/ws/results/a.zip"] ∧
  LocalStorage_copy os "" "/tmp/result.zip" "a.zip"
  = CallRaised [FsMakedirs ""] "FileNotFoundError" ∧
  LocalStorage_write os "" "a.txt" false
  = CallRaised [FsMakedirs ""] "FileNotFoundError".
Proof. repeat split; reflexivity. Qed.

(** ** Round trip of a construction *)

Section RoundTripOfInput.
Context {W : Type} `{!Externals W}.









End RoundTripOfInput.



(** A nested field whose class has defaults throughout is not required;
    left out, it holds [Undefined()], the construction succeeds and the
    dump raises. *)
Example Nested_undefined_dump_raises :
  let Origin := Klass "Origin" [("x", Integer None None (VInt 0))] in
  let Holder := Klass "Holder" [("origin", Nested Origin false VUndefined)] in
  @new unit plain_externals Holder [] ()
  = (Ok (VInstance Holder [("origin", VUndefined)]), ()) ∧
  @Attributee_dump unit plain_externals (VInstance Holder [("origin", VUndefined)])
  = Raise (NoAttribute "dump").
Proof. split; vm_compute; reflexivity. Qed.
